(** * mmda.types.document: the Document field registry, binding,
      serialization and query dispatch

    A shallow embedding of [src/mmda/types/document.py].  Python objects that
    are mutated in place live in an explicit store; a method is a computation
    over that store which either returns or raises, and what it mutated
    before raising stays mutated. *)

From Stdlib Require Import ZArith String Ascii List Decimal DecimalString DecimalNat.
From stdpp Require Import base option list gmap strings sorting.

Open Scope string_scope.
Open Scope list_scope.

(** ** Exceptions and the state-and-exception monad *)

(** The exceptions the module can end with.  [AssertionError] carries the
    message of the [assert] statement that failed (empty when the statement
    has none).  An exception that leaves a collaborator's code
    (an Annotation, an Indexer, the symbols object, an Image) is kept apart
    from the ones Document's own statements raise. *)
Inductive exn : Type :=
| AssertionError (msg : string)
| AttributeError
| TypeError
| KeyError (key : string)
| ValueError
| FileNotFoundError
| IsADirectoryError
| CollaboratorError (inner : exn).

Inductive outcome (A : Type) : Type :=
| Ok (a : A)
| Raise (e : exn).
Arguments Ok {A} a.
Arguments Raise {A} e.

(** A computation over a store [S]: the store that comes back with [Raise]
    is the one the exception left behind. *)
Definition M (S A : Type) : Type := S -> outcome A * S.

Definition ret {S A} (a : A) : M S A := fun s => (Ok a, s).

Definition raise {S A} (e : exn) : M S A := fun s => (Raise e, s).

Definition bind {S A B} (m : M S A) (k : A -> M S B) : M S B :=
  fun s => match m s with
           | (Ok a, s') => k a s'
           | (Raise e, s') => (Raise e, s')
           end.

Notation "x <- m ;; k" := (bind m (fun x => k))
  (at level 100, m at next level, right associativity).
Notation "m ;;; k" := (bind m (fun _ => k))
  (at level 100, right associativity).

Definition gets {S A} (f : S -> A) : M S A := fun s => (Ok (f s), s).

Definition modify {S} (f : S -> S) : M S unit := fun s => (Ok tt, f s).

(** A value that is already an outcome, read off the store. *)
Definition reads {S A} (f : S -> outcome A) : M S A := fun s => (f s, s).

(** [assert cond, msg] *)
Definition assert_ {S} (cond : bool) (msg : string) : M S unit :=
  if cond then ret tt else raise (AssertionError msg).

(** [for x in l: body x] *)
Fixpoint for_each {S A} (l : list A) (body : A -> M S unit) : M S unit :=
  match l with
  | [] => ret tt
  | x :: l' => body x ;;; for_each l' body
  end.

(** [[f x for x in l]] *)
Fixpoint list_comp {S A B} (l : list A) (f : A -> M S B) : M S (list B) :=
  match l with
  | [] => ret []
  | x :: l' => y <- f x ;; ys <- list_comp l' f ;; ret (y :: ys)
  end.

(** The same comprehension for an element function that only reads. *)
Fixpoint map_outcome {A B} (f : A -> outcome B) (l : list A) : outcome (list B) :=
  match l with
  | [] => Ok []
  | x :: l' =>
      match f x with
      | Raise e => Raise e
      | Ok y => match map_outcome f l' with
                | Raise e => Raise e
                | Ok ys => Ok (y :: ys)
                end
      end
  end.

(** A computation that leaves the store as it found it, whether it returns
    or raises. *)
Definition unchanging {S A} (m : M S A) : Prop :=
  forall s r s', m s = (r, s') -> s' = s.

(** A computation that raises from every store. *)
Definition never_returns {S A} (m : M S A) : Prop :=
  forall s, exists e s', m s = (Raise e, s').

(** ** Built-ins of the language and of [os.path] *)

(** [s.startswith(p)] *)
Fixpoint startswith (s p : string) : bool :=
  match p, s with
  | EmptyString, _ => true
  | String c p', String d s' => if decide (c = d) then startswith s' p' else false
  | String _ _, EmptyString => false
  end.

(** [s.endswith(p)] *)
Definition endswith (s p : string) : bool :=
  startswith (String.rev s) (String.rev p).

(** [str(n)] for a non-negative integer: its decimal digits. *)
Definition str_of_nat (n : nat) : string :=
  NilEmpty.string_of_uint (Nat.to_uint n).

(** [posixpath.join(a, b)]: [b] alone when it is absolute, [a + b] when [a]
    is empty or already ends in the separator, [a + "/" + b] otherwise. *)
Definition os_path_join (a b : string) : string :=
  if startswith b "/" then b
  else if decide (a = "") then b
  else if endswith a "/" then a +:+ b
  else a +:+ "/" +:+ b.

(** A Python dict with string keys, as the insertion-ordered association it
    is: [d[k] = v] keeps the position of a key that is already there. *)
Fixpoint dict_set {V} (d : list (string * V)) (k : string) (v : V) : list (string * V) :=
  match d with
  | [] => [(k, v)]
  | (k', v') :: d' => if decide (k' = k) then (k, v) :: d' else (k', v') :: dict_set d' k v
  end.

Fixpoint dict_get {V} (d : list (string * V)) (k : string) : option V :=
  match d with
  | [] => None
  | (k', v) :: d' => if decide (k' = k) then Some v else dict_get d' k
  end.

Definition dict_keys {V} (d : list (string * V)) : list string := d.*1.

(** [d.pop(k, None)]: the value (None when absent) and the dict without [k]. *)
Definition dict_pop {V} (d : list (string * V)) (k : string) : option V * list (string * V) :=
  (dict_get d k, filter (fun kv => kv.1 <> k) d).

(** [fields.pop(key)] where [fields] is the view that [dict.keys()] returns.
    A keys view is a set-like object without a [pop] attribute (only a dict
    or a list has one), so looking the method up raises AttributeError
    before anything is called. *)
Definition dict_keys_view_pop {S A} (view : list string) (key : string) : M S A :=
  raise AttributeError.

(** [os.path.basename(p)]: what follows the last separator. *)
Fixpoint has_sep (s : string) : bool :=
  match s with
  | EmptyString => false
  | String c s' => if decide (c = "/"%char) then true else has_sep s'
  end.

Fixpoint basename (p : string) : string :=
  match p with
  | EmptyString => EmptyString
  | String _ p' => if has_sep p then basename p' else p
  end.

(** [s.replace(sub, "")] for a non-empty [sub]: every occurrence, found
    left to right without overlap, is dropped.  [skip] counts the
    characters of a found occurrence still to drop. *)
Fixpoint remove_sub (sub : string) (skip : nat) (s : string) : string :=
  match s with
  | EmptyString => EmptyString
  | String c s' =>
      match skip with
      | S k => remove_sub sub k s'
      | O => if startswith s sub then remove_sub sub (String.length sub - 1) s'
             else String c (remove_sub sub 0 s')
      end
  end.

(** [int(s)] on a [str] of ASCII characters: blanks around (the tab, the
    line feed, the vertical tab, the form feed, the carriage return and the
    space; the separators 28 to 31, which [str.strip] drops, are no blanks
    for [int]), an optional sign, then decimal digits that single
    underscores may separate; anything else is a ValueError.  Outside ASCII
    [int] also reads the other decimal digits and blanks of Unicode; these
    are not covered, and [is_ascii] says of a string that it has none. *)
Definition is_blank (c : ascii) : bool :=
  let n := nat_of_ascii c in
  (Nat.leb 9 n && Nat.leb n 13) || Nat.eqb n 32.

Fixpoint is_ascii (s : string) : bool :=
  match s with
  | EmptyString => true
  | String c s' => Nat.ltb (nat_of_ascii c) 128 && is_ascii s'
  end.

Fixpoint lstrip (s : string) : string :=
  match s with
  | EmptyString => EmptyString
  | String c s' => if is_blank c then lstrip s' else s
  end.

Definition strip (s : string) : string :=
  String.rev (lstrip (String.rev (lstrip s))).

Definition digit_value (c : ascii) : option Z :=
  let n := nat_of_ascii c in
  if Nat.leb 48 n && Nat.leb n 57 then Some (Z.of_nat (n - 48)) else None.

Fixpoint int_digits (s : string) (acc : Z) (after_digit : bool) : option Z :=
  match s with
  | EmptyString => if after_digit then Some acc else None
  | String c s' =>
      if decide (c = "_"%char)
      then (if after_digit then int_digits s' acc false else None)
      else match digit_value c with
           | Some d => int_digits s' (10 * acc + d)%Z true
           | None => None
           end
  end.

Definition py_int (s : string) : outcome Z :=
  let body := strip s in
  let signed :=
    match body with
    | String "-" r => (true, r)
    | String "+" r => (false, r)
    | _ => (false, body)
    end in
  match int_digits signed.2 0 false with
  | Some n => Ok (if signed.1 then (- n)%Z else n)
  | None => Raise ValueError
  end.

(** [sorted(l, key=...)] once the keys are computed: a stable sort, so of
    two items with the same key the one that came first stays first. *)
Fixpoint insert_by_key {A} (x : Z * A) (l : list (Z * A)) : list (Z * A) :=
  match l with
  | [] => [x]
  | y :: l' => if (x.1 <=? y.1)%Z then x :: l else y :: insert_by_key x l'
  end.

Definition sort_by_key {A} (l : list (Z * A)) : list (Z * A) :=
  foldr insert_by_key [] l.

(** ** References into the store *)

(** A list object (the store holds lists of field names). *)
Definition loc : Type := nat.
(** An Annotation object and an Indexer object; both belong to collaborators. *)
Definition AnnRef : Type := nat.
Definition IndexerRef : Type := nat.

(** What the [doc] attribute of an Annotation may hold: [None], a Document
    (given by its object identity), or an object of some other class. *)
Inductive PyRef : Type :=
| RNone
| RDocument (oid : nat)
| ROther.

(** The calls this module makes into its collaborators that may change
    them, in the order made. *)
Inductive Call : Type :=
| CallDocSpanGroupIndexer (num_pages : nat)
| CallAnnotate (annotation : AnnRef) (doc : nat)
| CallLoad (field_name : string) (document : nat)
| CallIndex (indexer : IndexerRef).

(** ** Attributes every instance inherits

    Besides what [Document] defines, [dir(self)] and [getattr] see the
    attributes of [object] and the ones the [@dataclass] decorator installs
    (the list is the one of CPython 3.8 and 3.9; later versions add a few
    names, all of them between double underscores).  For [to_json] all that
    matters of such a value is what iterating it and calling [to_json()] on
    each item does. *)
Inductive iter_kind : Type :=
| NotIterable        (* a method wrapper, a class, None: TypeError *)
| EmptyIterable      (* an empty dict or tuple: the comprehension is [] *)
| ItemsLackToJson.   (* a non-empty str or dict: AttributeError on the first item *)

Definition inherited_attributes : list (string * iter_kind) :=
  [ ("__class__", NotIterable); ("__dataclass_fields__", EmptyIterable);
    ("__dataclass_params__", NotIterable); ("__delattr__", NotIterable);
    ("__dict__", ItemsLackToJson); ("__dir__", NotIterable);
    ("__doc__", ItemsLackToJson); ("__eq__", NotIterable);
    ("__format__", NotIterable); ("__ge__", NotIterable);
    ("__getattribute__", NotIterable); ("__gt__", NotIterable);
    ("__hash__", NotIterable); ("__init__", NotIterable);
    ("__init_subclass__", NotIterable); ("__le__", NotIterable);
    ("__lt__", NotIterable); ("__module__", ItemsLackToJson);
    ("__ne__", NotIterable); ("__new__", NotIterable);
    ("__reduce__", NotIterable); ("__reduce_ex__", NotIterable);
    ("__repr__", NotIterable); ("__setattr__", NotIterable);
    ("__sizeof__", NotIterable); ("__str__", NotIterable);
    ("__subclasshook__", NotIterable); ("__weakref__", NotIterable) ].

(** The methods [class Document] defines; [DEFAULT_FIELDS] and the property
    [fields] are the two other names of its namespace. *)
Definition Document_methods : list string :=
  [ "_register_field"; "_annotate"; "annotate"; "_add"; "add"; "to_json";
    "save"; "from_json"; "load"; "find" ].

(** The attributes [__init__] binds on every instance. *)
Definition init_attributes : list string :=
  [ "symbols"; "images"; "_fields"; "_indexers" ].

(** ** Collaborators

    [mmda.types.names], [document_elements], [annotation] and [image] are
    not part of the sources.  The two names are any two strings, and every
    collaborator operation is an arbitrary function over the state [Ext] of
    the collaborators' objects. *)
Class Collaborators : Type := {
  Symbols : string;
  Images : string;
  Json : Type;
  DocumentSymbols : Type;
  Image : Type;
  Query : Type;
  QueryResult : Type;
  Ext : Type;
  (** [symbols.page_count] *)
  page_count : DocumentSymbols -> nat;
  (** [[group.to_json() for group in symbols]] *)
  DocumentSymbols_to_json : DocumentSymbols -> outcome (list Json);
  (** [image.to_json()] *)
  Image_to_json : Image -> outcome Json;
  (** [DocSpanGroupIndexer(num_pages=n)] *)
  DocSpanGroupIndexer : nat -> M Ext IndexerRef;
  (** [indexer.index(query)] *)
  Indexer_index : IndexerRef -> Query -> M Ext QueryResult;
  (** [annotation.annotate(doc)], [annotation.doc], [annotation.to_json()] *)
  Annotation_annotate : AnnRef -> nat -> M Ext AnnRef;
  Annotation_doc : AnnRef -> Ext -> outcome PyRef;
  Annotation_to_json : AnnRef -> Ext -> outcome Json;
  (** [DocumentSymbols.load(field_name=.., annotations=.., document=..)] *)
  DocumentSymbols_load : string -> Json -> nat -> M Ext AnnRef
}.

Section Document.

Context {C : Collaborators}.

(** *** The data model *)

(** The value bound to [self.symbols]: the [DocumentSymbols] the caller
    passes, or the deserialized list [from_json] would pass on. *)
Inductive PySymbols : Type :=
| SymObj (s : DocumentSymbols)
| SymRaw (l : list Json).

(** The value bound to [self.images]: [None], a list of images, or the
    deserialized list [from_json] passes on. *)
Inductive PyImages : Type :=
| ImNone
| ImList (l : list Image)
| ImRaw (l : list Json).

(** The serialized form: field name to the serialized items. *)
Definition JsonDict : Type := list (string * list Json).

(** An instance.  [_fields] holds a reference to a list object, not a list:
    [__init__] binds it to the list the class attribute [DEFAULT_FIELDS]
    names.  [attrs] are the attributes [setattr] injects. *)
Record Document : Type := mkDocument {
  oid : nat;
  symbols : PySymbols;
  images : PyImages;
  _fields : loc;
  _indexers : gmap string IndexerRef;
  attrs : gmap string (list AnnRef)
}.

(** What a path of the file system holds. *)
Inductive File : Type :=
| FJson (body : JsonDict)
| FImage (image : Image)
| FOther.

(** Everything outside one instance: the list objects, the next object
    identity, the collaborators' objects, the calls made into them, and the
    file system (its directories and its files, by path). *)
Record World : Type := mkWorld {
  lists : gmap loc (list string);
  next_oid : nat;
  ext : Ext;
  calls : list Call;
  dirs : gset string;
  files : gmap string File
}.

Definition set_lists (f : gmap loc (list string) -> gmap loc (list string)) (w : World) : World :=
  mkWorld (f (lists w)) (next_oid w) (ext w) (calls w) (dirs w) (files w).

Definition set_ext (e : Ext) (w : World) : World :=
  mkWorld (lists w) (next_oid w) e (calls w) (dirs w) (files w).

Definition log_call (c : Call) (w : World) : World :=
  mkWorld (lists w) (next_oid w) (ext w) (calls w ++ [c]) (dirs w) (files w).

Definition set_files (f : gmap string File -> gmap string File) (w : World) : World :=
  mkWorld (lists w) (next_oid w) (ext w) (calls w) (dirs w) (f (files w)).

Definition set_indexers (f : gmap string IndexerRef -> gmap string IndexerRef) (d : Document) : Document :=
  mkDocument (oid d) (symbols d) (images d) (_fields d) (f (_indexers d)) (attrs d).

Definition set_attrs (f : gmap string (list AnnRef) -> gmap string (list AnnRef)) (d : Document) : Document :=
  mkDocument (oid d) (symbols d) (images d) (_fields d) (_indexers d) (f (attrs d)).

Definition set_images (i : PyImages) (d : Document) : Document :=
  mkDocument (oid d) (symbols d) i (_fields d) (_indexers d) (attrs d).

(** The store of a method call: [self] and the world. *)
Definition St : Type := Document * World.

(** [DEFAULT_FIELDS = [Symbols, Images]]: the class statement builds one
    list object and binds the class attribute to it. *)
Definition Document_DEFAULT_FIELDS : loc := 0.

Definition class_defined (e : Ext) (ds : gset string) (fl : gmap string File) : World :=
  mkWorld {[ Document_DEFAULT_FIELDS := [Symbols; Images] ]} 0 e [] ds fl.

(** The list a reference names, and [l.append(x)] on it: the one list
    object changes, for every holder of the reference. *)
Definition list_at (w : World) (l : loc) : list string := default [] (lists w !! l).

Definition list_append (l : loc) (x : string) (w : World) : World :=
  set_lists (insert l (list_at w l ++ [x])) w.

(** A call into a collaborator: logged, run on the collaborators' state, and
    an exception that leaves it is marked as theirs. *)
Definition collaborator {A} (c : Call) (m : M Ext A) : M St A :=
  fun s =>
    let w := log_call c s.2 in
    match m (ext w) with
    | (Ok a, e') => (Ok a, (s.1, set_ext e' w))
    | (Raise x, e') => (Raise (CollaboratorError x), (s.1, set_ext e' w))
    end.

(** Reading a collaborator's object. *)
Definition collaborator_read {A} (f : Ext -> outcome A) : M St A :=
  fun s => match f (ext s.2) with
           | Ok a => (Ok a, s)
           | Raise x => (Raise (CollaboratorError x), s)
           end.

(** *** [__init__] *)

(** [Document(symbols, images)]: a new object with the next identity.
    [self._fields = self.DEFAULT_FIELDS] binds the instance attribute to the
    class's list object itself; no copy is made. *)
Definition new_Document (symbols : PySymbols) (images : PyImages) (w : World) : Document :=
  mkDocument (next_oid w) symbols images Document_DEFAULT_FIELDS ∅ ∅.

Definition Document_init (symbols : PySymbols) (images : PyImages) : M World Document :=
  fun w =>
    (Ok (new_Document symbols images w),
     mkWorld (lists w) (S (next_oid w)) (ext w) (calls w) (dirs w) (files w)).

(** The new Document together with the world it is created in. *)
Definition construct (symbols : PySymbols) (images : PyImages) (w : World) : St :=
  (new_Document symbols images w, (Document_init symbols images w).2).

(** The property [fields]: [return self._fields]. *)
Definition fields : M St (list string) :=
  gets (fun s => list_at s.2 (_fields s.1)).

(** [dir(self)]: the instance's own attributes, the names of the class, and
    the inherited ones. *)
Definition dir (d : Document) : list string :=
  init_attributes ++ (map_to_list (attrs d)).*1
  ++ "DEFAULT_FIELDS" :: "fields" :: Document_methods
  ++ inherited_attributes.*1.

(** [self.symbols.page_count] *)
Definition symbols_page_count (s : PySymbols) : outcome nat :=
  match s with
  | SymObj s => Ok (page_count s)
  | SymRaw _ => Raise AttributeError
  end.

(** *** [_register_field] *)
Definition _register_field (field_name : string) : M St unit :=
  assert_ (negb (startswith field_name "_"))
    "The field_name should not start with `_`. " ;;;
  fs <- fields ;;
  assert_ (bool_decide (field_name ∉ fs)) "This field name already exists" ;;;
  assert_ (bool_decide (field_name ∉ ["fields"]))
    "The field_name should not be 'fields'." ;;;
  names <- gets (fun s => dir s.1) ;;
  assert_ (bool_decide (field_name ∉ names))
    ("The field_name should not conflict with existing class properties "
     +:+ field_name) ;;;
  modify (fun s => (s.1, list_append (_fields s.1) field_name s.2)) ;;;
  num_pages <- reads (fun s => symbols_page_count (symbols s.1)) ;;
  indexer <- collaborator (CallDocSpanGroupIndexer num_pages) (DocSpanGroupIndexer num_pages) ;;
  modify (fun s => (set_indexers (insert field_name indexer) s.1, s.2)).

(** [setattr(self, name, value)] with a list of annotations for value.  The
    property [fields] has no setter.  Both callers reach this statement only
    with a name that passed their assertions, which is never one of the four
    attributes of [__init__] (see [slots_free]); it lands in [attrs]. *)
Definition setattr (name : string) (value : list AnnRef) : M St unit :=
  if decide (name = "fields") then raise AttributeError
  else modify (fun s => (set_attrs (insert name value) s.1, s.2)).

(** *** [_annotate] and [annotate] *)
Definition _annotate (field_name : string) (field_annotations : list AnnRef) : M St unit :=
  _register_field field_name ;;;
  for_each field_annotations (fun annotation =>
    me <- gets (fun s => oid s.1) ;;
    _ <- collaborator (CallAnnotate annotation me) (Annotation_annotate annotation me) ;;
    ret tt) ;;;
  setattr field_name field_annotations.

(** [annotate(self, **annotations)]: the keyword arguments in call order.  A
    keyword named like the positional parameter [self] is refused when the
    call is bound, before the body runs. *)
Definition annotate (annotations : list (string * list AnnRef)) : M St unit :=
  if bool_decide ("self" ∈ dict_keys annotations) then raise TypeError
  else for_each annotations (fun kv => _annotate kv.1 kv.2).

(** *** [_add] and [add] *)

(** [other == self] for [self] a Document.  The class is decorated with
    [@dataclass] and declares no annotated class-level field, so the
    generated [__eq__] compares the two empty tuples of fields once the
    classes agree: it answers True for any two Documents.  For [None] and
    for an object of another class (one without an [__eq__] of its own that
    would accept a Document) both sides answer NotImplemented and the
    comparison falls back to identity, which is False. *)
Definition Document_eq (other : PyRef) (self : Document) : bool :=
  match other with
  | RDocument _ => true
  | RNone | ROther => false
  end.

Definition _add (field_name : string) (field_annotations : list AnnRef) : M St unit :=
  fs <- gets (fun s => list_at s.2 (_fields s.1)) ;;
  assert_ (bool_decide (field_name ∈ fs)) "" ;;;
  indexers <- gets (fun s => _indexers s.1) ;;
  assert_ (bool_decide (is_Some (indexers !! field_name))) "" ;;;
  for_each field_annotations (fun annotation =>
    doc <- collaborator_read (Annotation_doc annotation) ;;
    self <- gets fst ;;
    assert_ (Document_eq doc self) "") ;;;
  setattr field_name field_annotations.

Definition add (annotations : list (string * list AnnRef)) : M St unit :=
  if bool_decide ("self" ∈ dict_keys annotations) then raise TypeError
  else for_each annotations (fun kv => _add kv.1 kv.2).

(** *** [getattr] and [to_json] *)

(** What [getattr(self, name)] can return. *)
Inductive PyAttr : Type :=
| VSymbols (s : PySymbols)
| VImages (i : PyImages)
| VStrList (l : list string)
| VIndexers (m : gmap string IndexerRef)
| VAnnotations (l : list AnnRef)
| VMethod
| VInherited (k : iter_kind).

(** Attribute lookup on an instance: the property of the class first, then
    the instance's own attributes, then the rest of the class and what it
    inherits. *)
Definition getattr (name : string) : M St PyAttr :=
  fun s =>
    let d := s.1 in
    (if decide (name = "fields") then Ok (VStrList (list_at s.2 (_fields d)))
     else match attrs d !! name with
     | Some l => Ok (VAnnotations l)
     | None =>
         if decide (name = "symbols") then Ok (VSymbols (symbols d))
         else if decide (name = "images") then Ok (VImages (images d))
         else if decide (name = "_fields") then Ok (VStrList (list_at s.2 (_fields d)))
         else if decide (name = "_indexers") then Ok (VIndexers (_indexers d))
         else if decide (name = "DEFAULT_FIELDS")
              then Ok (VStrList (list_at s.2 Document_DEFAULT_FIELDS))
         else if bool_decide (name ∈ Document_methods) then Ok VMethod
         else match dict_get inherited_attributes name with
              | Some k => Ok (VInherited k)
              | None => Raise AttributeError
              end
     end, s).

(** Iterating a deserialized list, a list of names or the keys of a dict and
    calling [to_json()] on each item: nothing to do when it is empty, and
    no item has the method. *)
Definition items_lack_to_json {A B} (l : list A) : outcome (list B) :=
  match l with
  | [] => Ok []
  | _ :: _ => Raise AttributeError
  end.

Definition as_collaborator {A} (o : outcome A) : outcome A :=
  match o with
  | Ok a => Ok a
  | Raise e => Raise (CollaboratorError e)
  end.

(** [[group.to_json() for group in value]] *)
Definition groups_to_json (value : PyAttr) : M St (list Json) :=
  fun s =>
    (match value with
     | VSymbols (SymObj sym) => as_collaborator (DocumentSymbols_to_json sym)
     | VSymbols (SymRaw l) => items_lack_to_json l
     | VImages ImNone => Raise TypeError
     | VImages (ImList l) => as_collaborator (map_outcome Image_to_json l)
     | VImages (ImRaw l) => items_lack_to_json l
     | VStrList l => items_lack_to_json l
     | VIndexers m => items_lack_to_json (map_to_list m)
     | VAnnotations l =>
         as_collaborator (map_outcome (fun a => Annotation_to_json a (ext s.2)) l)
     | VMethod => Raise TypeError
     | VInherited NotIterable => Raise TypeError
     | VInherited EmptyIterable => Ok []
     | VInherited ItemsLackToJson => Raise AttributeError
     end, s).

(** [{key: value(key) for key in keys}], built left to right. *)
Fixpoint dict_comp {V} (keys : list string) (value : string -> M St V)
    (acc : list (string * V)) : M St (list (string * V)) :=
  match keys with
  | [] => ret acc
  | k :: keys' => v <- value k ;; dict_comp keys' value (dict_set acc k v)
  end.

Definition to_json (fields_arg : option (list string)) (with_images : bool) : M St JsonDict :=
  fs <- match fields_arg with
        | None => fields
        | Some l => ret l
        end ;;
  let fs := if negb with_images then filter (fun field => field <> Images) fs else fs in
  dict_comp fs (fun field => value <- getattr field ;; groups_to_json value) [].

(** *** The file system and [save] *)

(** [os.path.isdir(path)] *)
Definition isdir (path : string) : M St bool :=
  gets (fun s => bool_decide (path ∈ dirs s.2)).

(** [with open(path, "w") as fp: <write content>]: refused when [path]
    names a directory; the directory the file goes into is taken to exist. *)
Definition open_write (path : string) (content : File) : M St unit :=
  fun s =>
    if bool_decide (path ∈ dirs s.2) then (Raise IsADirectoryError, s)
    else (Ok tt, (s.1, set_files (insert path content) s.2)).

(** Modelled from the spec: [Image] is not in the sources; it "exposes
    save(path), load(path) -> Image", and what was saved is what loads.
    [image.save(path)] writes the image as the content of the file. *)
Definition Image_save (image : Image) (path : string) : M St unit :=
  open_write path (FImage image).

(** [for pid, image in enumerate(self.images): image.save(path/<pid>.png)] *)
Definition save_images (path : string) : M St unit :=
  imgs <- gets (fun s => images s.1) ;;
  match imgs with
  | ImNone => raise TypeError
  | ImList l =>
      for_each (imap pair l) (fun pi =>
        Image_save pi.2 (os_path_join path (str_of_nat pi.1 +:+ ".png")))
  | ImRaw [] => ret tt
  | ImRaw (_ :: _) => raise AttributeError
  end.

Definition save (path : string) (fields_arg : option (list string))
    (with_images images_in_json : bool) : M St unit :=
  (if with_images && negb images_in_json
   then is_dir <- isdir path ;;
        assert_ is_dir
          "When with_images=True and images_in_json=False, it requires the path to be a folder"
   else ret tt) ;;;
  doc_json <- to_json fields_arg (with_images && images_in_json) ;;
  if with_images && negb images_in_json
  then open_write (os_path_join path "document.json") (FJson doc_json) ;;;
       save_images path
  else open_write path (FJson doc_json).

(** The path of the image file of page [pid], and the files after the
    pages [k], [k+1], ... of a list of images have been written in order. *)
Definition page_path (path : string) (pid : nat) : string :=
  os_path_join path (str_of_nat pid +:+ ".png").

Fixpoint write_pages (path : string) (k : nat) (l : list Image)
    (f : gmap string File) : gmap string File :=
  match l with
  | [] => f
  | image :: l' => write_pages path (S k) l' (<[page_path path k := FImage image]> f)
  end.

(** *** [from_json] *)

(** Running a method on a Document the caller holds in a local variable. *)
Definition on_doc {A} (doc : Document) (m : M St A) : M World (A * Document) :=
  fun w => match m (doc, w) with
           | (Ok a, (doc', w')) => (Ok (a, doc'), w')
           | (Raise e, (_, w')) => (Raise e, w')
           end.

(** The loop of [from_json] over [doc_dict.items()]. *)
Fixpoint from_json_items (items : JsonDict) (doc : Document) : M World Document :=
  match items with
  | [] => ret doc
  | (field_name, raw) :: items' =>
      r <- on_doc doc
             (field_annotations <-
                list_comp raw (fun field_annotation =>
                  me <- gets (fun s => oid s.1) ;;
                  collaborator (CallLoad field_name me)
                    (DocumentSymbols_load field_name field_annotation me)) ;;
              _add field_name field_annotations) ;;
      from_json_items items' r.2
  end.

(** [from_json(cls, doc_dict)].  The dict is the caller's; what [pop] takes
    out of it is gone for the caller too, which the store does not track. *)
Definition from_json (doc_dict : JsonDict) : M World Document :=
  let fields := dict_keys doc_dict in
  symbols <- dict_keys_view_pop fields Symbols ;;
  let (images, doc_dict) := dict_pop doc_dict Images in
  doc <- Document_init (SymRaw symbols)
           (match images with
            | None => ImNone
            | Some l => ImRaw l
            end) ;;
  from_json_items doc_dict doc.

(** *** [load] *)

(** The name under which [p] is an entry of the directory [path], if it is
    one: [p] is [os.path.join(path, name)] for a name without separator. *)
Fixpoint strip_prefix (pre s : string) : option string :=
  match pre, s with
  | EmptyString, _ => Some s
  | String c pre', String d s' => if decide (c = d) then strip_prefix pre' s' else None
  | String _ _, EmptyString => None
  end.

Definition entry_name (path p : string) : option string :=
  match strip_prefix (os_path_join path "") p with
  | Some name => if decide (name = "") then None
                 else if has_sep name then None else Some name
  | None => None
  end.

(** [glob.has_magic(path)]: one of the characters [*], [?] and [[], which
    [glob] reads as a pattern wherever they stand. *)
Fixpoint has_magic (s : string) : bool :=
  match s with
  | EmptyString => false
  | String c s' =>
      if decide (c = "*"%char) then true
      else if decide (c = "?"%char) then true
      else if decide (c = "["%char) then true
      else has_magic s'
  end.

(** [glob(os.path.join(path, "*.png"))] for a [path] without pattern
    characters ([has_magic path = false]; with one, [glob] matches [path]
    itself against the directories, which is not covered): the entries of
    the directory, files and directories alike, whose name ends in [.png]
    and does not start with a dot, each spelled [os.path.join(path, name)].
    The order is the one the system lists them in, here the order of the
    store. *)
Definition glob_png (w : World) (path : string) : list string :=
  filter (fun p => match entry_name path p with
                   | Some name => endswith name ".png" && negb (startswith name ".")
                   | None => false
                   end = true)
         ((map_to_list (files w)).*1 ++ elements (dirs w)).

(** [with open(path, "r") as fp: json.load(fp)] *)
Definition open_read_json (path : string) : M World JsonDict :=
  fun w =>
    (if bool_decide (path ∈ dirs w) then Raise IsADirectoryError
     else match files w !! path with
          | None => Raise FileNotFoundError
          | Some (FJson body) => Ok body
          | Some _ => Raise ValueError
          end, w).

(** Modelled from the spec: [Image.load(path)] gives back the image that
    [save] wrote there; any other content is refused by the image
    collaborator. *)
Definition Image_load (path : string) : M World Image :=
  fun w =>
    (if bool_decide (path ∈ dirs w) then Raise IsADirectoryError
     else match files w !! path with
          | None => Raise FileNotFoundError
          | Some (FImage image) => Ok image
          | Some _ => Raise (CollaboratorError ValueError)
          end, w).

(** The key of the sort: [int(os.path.basename(x).replace('.png', ''))]. *)
Definition page_index (x : string) : outcome Z :=
  py_int (remove_sub ".png" 0 (basename x)).

Definition load (path : string) : M World Document :=
  is_dir <- gets (fun w => bool_decide (path ∈ dirs w)) ;;
  found <-
    (if (is_dir : bool)
     then let json_path := os_path_join path "document.json" in
          image_files <- gets (fun w => glob_png w path) ;;
          keyed <- reads (fun _ =>
                     map_outcome (fun x => match page_index x with
                                           | Ok k => Ok (k, x)
                                           | Raise e => Raise e
                                           end) image_files) ;;
          let image_files := (sort_by_key keyed).*2 in
          images <- list_comp image_files Image_load ;;
          ret (json_path, ImList images)
     else ret (path, ImNone)) ;;
  json_data <- open_read_json found.1 ;;
  doc <- from_json json_data ;;
  ret (set_images found.2 doc).

(** *** [find] *)

(** What the first parameter of a method is bound to. *)
Inductive receiver : Type :=
| TheInstance
| TheClass.

(** [self._indexers]: an instance has the attribute since [__init__]; the
    class has no attribute of that name ([_indexers] is bound on instances
    only, and nothing the class inherits is called so). *)
Definition receiver_indexers (self : receiver) : M St (gmap string IndexerRef) :=
  match self with
  | TheInstance => gets (fun s => _indexers s.1)
  | TheClass => raise AttributeError
  end.

(** The body of [find]: [return self._indexers[field_name].index(query)]. *)
Definition find_body (self : receiver) (query : Query) (field_name : string) : M St QueryResult :=
  indexers <- receiver_indexers self ;;
  match indexers !! field_name with
  | None => raise (KeyError field_name)
  | Some indexer => collaborator (CallIndex indexer) (Indexer_index indexer query)
  end.

(** [find] is decorated with [@classmethod]: whether it is called on the
    class or on an instance, its first parameter is bound to the class. *)
Definition find (query : Query) (field_name : string) : M St QueryResult :=
  find_body TheClass query field_name.

(** *** Vocabulary of the properties *)

(** The field list [to_json] works from: the argument, or the registered
    fields when it is omitted. *)
Definition requested_fields (fields_arg : option (list string)) (s : St) : list string :=
  match fields_arg with
  | None => list_at s.2 (_fields s.1)
  | Some l => l
  end.

(** The store a successful registration leaves: the name appended to the
    list [_fields] refers to, the Indexer constructor called, and the new
    Indexer stored under the name. *)
Definition registered (field_name : string) (num_pages : nat) (indexer : IndexerRef)
    (e' : Ext) (s : St) : St :=
  (set_indexers (insert field_name indexer) s.1,
   set_ext e' (log_call (CallDocSpanGroupIndexer num_pages)
     (list_append (_fields s.1) field_name s.2))).

(** One iteration of the binding loop of [_annotate], and the loop. *)
Definition bind_step (annotation : AnnRef) : M St unit :=
  me <- gets (fun s => oid s.1) ;;
  _ <- collaborator (CallAnnotate annotation me) (Annotation_annotate annotation me) ;;
  ret tt.

Definition bind_loop (field_annotations : list AnnRef) : M St unit :=
  for_each field_annotations bind_step.

(** Two worlds that differ at most in the collaborators' objects and in the
    calls made into them. *)
Definition same_registry (w w' : World) : Prop :=
  lists w' = lists w /\ next_oid w' = next_oid w
  /\ dirs w' = dirs w /\ files w' = files w.

(** The calls one field of [annotate] makes: the Indexer is built at the end
    of the registration, then every Annotation is bound, first to last. *)
Definition field_calls (num_pages me : nat) (field_annotations : list AnnRef) : list Call :=
  CallDocSpanGroupIndexer num_pages
  :: map (fun a => CallAnnotate a me) field_annotations.

(** One iteration of the checking loop of [_add]. *)
Definition check_step (annotation : AnnRef) : M St unit :=
  doc <- collaborator_read (Annotation_doc annotation) ;;
  self <- gets fst ;;
  assert_ (Document_eq doc self) "".

(** The body shared by [annotate] and [add]. *)
Definition kwargs_loop (body : string -> list AnnRef -> M St unit)
    (annotations : list (string * list AnnRef)) : M St unit :=
  if bool_decide ("self" ∈ dict_keys annotations) then raise TypeError
  else for_each annotations (fun kv => body kv.1 kv.2).

(** Names only ever get appended to a list: whatever is in some list stays
    in it. *)
Definition fields_kept (w w' : World) : Prop :=
  forall l x, x ∈ list_at w l -> x ∈ list_at w' l.

(** Every registered field other than the two reserved names has an
    Indexer. *)
Definition registry_consistent (s : St) : Prop :=
  forall f, f ∈ list_at s.2 (_fields s.1) -> f <> Symbols -> f <> Images ->
            is_Some (_indexers s.1 !! f).

(** What [to_json] computes for one field:
    [[group.to_json() for group in getattr(self, field)]]. *)
Definition serialize_field (field : string) (s : St) : outcome (list Json) :=
  ((value <- getattr field ;; groups_to_json value) s).1.

(** The fields [to_json] goes through: the requested ones, without the
    images name unless [with_images] is set. *)
Definition kept_fields (fields_arg : option (list string)) (with_images : bool)
    (s : St) : list string :=
  if negb with_images
  then filter (fun field => field <> Images) (requested_fields fields_arg s)
  else requested_fields fields_arg s.

(** A field paired with its serialization. *)
Definition serialized_entry (s : St) (field : string) : outcome (string * list Json) :=
  match serialize_field field s with
  | Ok v => Ok (field, v)
  | Raise e => Raise e
  end.

(** Two stores that differ at most in the content of files, none of which
    went away. *)
Definition files_only (s s' : St) : Prop :=
  s'.1 = s.1
  /\ lists s'.2 = lists s.2 /\ next_oid s'.2 = next_oid s.2
  /\ ext s'.2 = ext s.2 /\ calls s'.2 = calls s.2 /\ dirs s'.2 = dirs s.2
  /\ forall p, is_Some (files s.2 !! p) -> is_Some (files s'.2 !! p).

(** A decimal digit, and a string of decimal digits. *)
Definition is_digit (c : ascii) : bool :=
  Nat.leb 48 (nat_of_ascii c) && Nat.leb (nat_of_ascii c) 57.

Fixpoint all_digits (s : string) : Prop :=
  match s with
  | EmptyString => True
  | String c s' => is_digit c = true /\ all_digits s'
  end.

(** *** What can happen between two moments *)

(** The methods a caller may invoke on an instance it holds. *)
Inductive api_call : Type :=
| Call_annotate (annotations : list (string * list AnnRef))
| Call_add (annotations : list (string * list AnnRef))
| Call_to_json (fields_arg : option (list string)) (with_images : bool)
| Call_save (path : string) (fields_arg : option (list string))
    (with_images images_in_json : bool)
| Call_find (query : Query) (field_name : string).

(** The store a call leaves, whether it returned or raised. *)
Definition after_call (c : api_call) (s : St) : St :=
  match c with
  | Call_annotate annotations => (annotate annotations s).2
  | Call_add annotations => (add annotations s).2
  | Call_to_json fields_arg with_images => (to_json fields_arg with_images s).2
  | Call_save path fields_arg with_images images_in_json =>
      (save path fields_arg with_images images_in_json s).2
  | Call_find query field_name => (find query field_name s).2
  end.

(** [later w w']: the world [w'] comes after [w] by constructing Documents,
    loading them, and calling methods on any instances, in any order. *)
Inductive later : World -> World -> Prop :=
| later_now w : later w w
| later_construct w w' symbols images :
    later w w' -> later w (construct symbols images w').2
| later_load w w' path :
    later w w' -> later w (load path w').2
| later_call w w' d c :
    later w w' -> later w (after_call c (d, w')).2.

End Document.

(** ** A small set of collaborators *)

(** Modelled from the spec: the state of the collaborators' objects, whose
    sources are absent.  "After binding, an Annotation holds a non-owning
    reference back to its owning Document": the [doc] attribute of each
    Annotation ([None] until it is bound), and the number of Indexers built
    so far. *)
Record SimpleExt : Type := mkSimpleExt {
  ann_docs : gmap AnnRef PyRef;
  n_indexers : nat
}.

(** Modelled from the spec: the simplest collaborators that do what section
    3 of the spec asks of them.  [annotate] stores the Document in the
    Annotation's [doc]; a symbols object is its page count and has no
    groups; an image and a serialized value are numbers; an Annotation
    serializes to its own reference; a new Indexer gets the next free
    reference and finds nothing. *)
Definition simple : Collaborators := {|
  Symbols := "symbols";
  Images := "images";
  Json := nat;
  DocumentSymbols := nat;
  Image := nat;
  Query := nat;
  QueryResult := list AnnRef;
  Ext := SimpleExt;
  page_count := fun s => s;
  DocumentSymbols_to_json := fun s => Ok [];
  Image_to_json := fun i => Ok i;
  DocSpanGroupIndexer := fun _ e =>
    (Ok (n_indexers e), mkSimpleExt (ann_docs e) (S (n_indexers e)));
  Indexer_index := fun _ _ e => (Ok [], e);
  Annotation_annotate := fun a d e =>
    (Ok a, mkSimpleExt (<[a := RDocument d]> (ann_docs e)) (n_indexers e));
  Annotation_doc := fun a e => Ok (default RNone (ann_docs e !! a));
  Annotation_to_json := fun a e => Ok a;
  DocumentSymbols_load := fun _ j d e =>
    (Ok j, mkSimpleExt (<[j := RDocument d]> (ann_docs e)) (n_indexers e))
|}.

(** The world right after the module is imported: no collaborator object
    yet, and a file system with the one directory [out]. *)
Definition simple_world : @World simple :=
  @class_defined simple (mkSimpleExt ∅ 0) {[ "out" ]} ∅.

(** *** Scenarios over these collaborators *)

(** [alice = Document(symbols)] over a two-page symbol stream, then
    [alice.annotate(tokens=[a5, a6])]. *)
Definition two_pages : @PySymbols simple := @SymObj simple 2.

Definition alice : @St simple := @construct simple two_pages ImNone simple_world.

Definition alice_tokens : @St simple :=
  (@annotate simple [("tokens", [5; 6])] alice).2.

(** [bob = Document(symbols)], constructed after that; then
    [bob.annotate(words=[a7])], which binds [a7] to [bob]. *)
Definition bob : @St simple := @construct simple two_pages ImNone alice_tokens.2.

Definition bob_words : @St simple := (@annotate simple [("words", [7])] bob).2.

(** [alice] as she is once [bob] has done that: her own attributes, and the
    world [bob] left. *)
Definition alice_later : @St simple := (alice_tokens.1, bob_words.2).

(** [alice.add(tokens=[a7])] from there, and [alice.annotate] with a second
    field instead of the first call. *)
Definition alice_readded : @St simple := (@add simple [("tokens", [7])] alice_later).2.

Definition alice_two : @St simple :=
  (@annotate simple [("tokens", [5; 6]); ("sentences", [8])] alice).2.

(** [carol = Document(symbols, images=[i11, i12])] in a fresh world. *)
Definition carol : @St simple :=
  @construct simple two_pages (@ImList simple [11; 12]) simple_world.


(** A directory [out] as [carol.save("out")] leaves it, with eleven pages
    instead of two. *)
Definition saved_world : @World simple :=
  @class_defined simple (mkSimpleExt ∅ 0) {[ "out" ]}
    (@write_pages simple "out" 0 (seq 100 11)
       {[ "out/document.json" := @FJson simple [("symbols", [])] ]}).

(** Modelled from the spec: the same collaborators, except that an
    Annotation may refuse to be bound.  Binding the Annotation 13 raises
    ValueError and leaves it unbound. *)
Definition fragile : Collaborators := {|
  Symbols := "symbols";
  Images := "images";
  Json := nat;
  DocumentSymbols := nat;
  Image := nat;
  Query := nat;
  QueryResult := list AnnRef;
  Ext := SimpleExt;
  page_count := fun s => s;
  DocumentSymbols_to_json := fun s => Ok [];
  Image_to_json := fun i => Ok i;
  DocSpanGroupIndexer := fun _ e =>
    (Ok (n_indexers e), mkSimpleExt (ann_docs e) (S (n_indexers e)));
  Indexer_index := fun _ _ e => (Ok [], e);
  Annotation_annotate := fun a d e =>
    if decide (a = 13%nat) then (Raise ValueError, e)
    else (Ok a, mkSimpleExt (<[a := RDocument d]> (ann_docs e)) (n_indexers e));
  Annotation_doc := fun a e => Ok (default RNone (ann_docs e !! a));
  Annotation_to_json := fun a e => Ok a;
  DocumentSymbols_load := fun _ j d e =>
    (Ok j, mkSimpleExt (<[j := RDocument d]> (ann_docs e)) (n_indexers e))
|}.

(** [dora = Document(symbols)] with these, in a fresh world, and what
    [dora.annotate(tokens=[a5, a13, a6])] leaves when it raises. *)
Definition dora : @St fragile :=
  @construct fragile (@SymObj fragile 2) (@ImNone fragile)
    (@class_defined fragile (mkSimpleExt ∅ 0) {[ "out" ]} ∅).

Definition dora_failed : @St fragile :=
  (@_annotate fragile "tokens" [5; 13; 6] dora).2.


(** A directory [out] that holds, beside a saved page, an image whose name
    is no page number. *)
Definition cover_world : @World simple :=
  @class_defined simple (mkSimpleExt ∅ 0) {[ "out" ]}
    {[ "out/document.json" := @FJson simple [("symbols", [])];
       "out/0.png" := @FImage simple 100%nat;
       "out/cover.png" := @FImage simple 101%nat ]}.

(** * Properties *)

(** ** The monad *)

Lemma bind_Ok_inv {S A B} (m : M S A) (k : A -> M S B) s b s' :
  bind m k s = (Ok b, s') ->
  exists a s1, m s = (Ok a, s1) /\ k a s1 = (Ok b, s').
Proof.
  unfold bind. destruct (m s) as [[a|e] s1]; [eauto | discriminate].
Qed.

Lemma bind_Raise_inv {S A B} (m : M S A) (k : A -> M S B) s e s' :
  bind m k s = (Raise e, s') ->
  m s = (Raise e, s') \/ exists a s1, m s = (Ok a, s1) /\ k a s1 = (Raise e, s').
Proof.
  unfold bind. destruct (m s) as [[a|e0] s1]; [eauto | intros [= -> ->]; eauto].
Qed.

Lemma bind_Ok_step {S A B} (m : M S A) (k : A -> M S B) s a s1 :
  m s = (Ok a, s1) -> bind m k s = k a s1.
Proof. unfold bind. by intros ->. Qed.

Lemma bind_Raise_step {S A B} (m : M S A) (k : A -> M S B) s e s1 :
  m s = (Raise e, s1) -> bind m k s = (Raise e, s1).
Proof. unfold bind. by intros ->. Qed.

Lemma assert_Ok_inv {S} (c : bool) msg (s s' : S) u :
  assert_ c msg s = (Ok u, s') -> c = true /\ s' = s.
Proof. destruct c; cbn; [by intros [= _ ->] | discriminate]. Qed.

Lemma unchanging_ret {S A} (a : A) : unchanging (@ret S A a).
Proof. by intros s r s' [= _ <-]. Qed.

Lemma unchanging_raise {S A} e : unchanging (@raise S A e).
Proof. by intros s r s' [= _ <-]. Qed.

Lemma unchanging_gets {S A} (f : S -> A) : unchanging (gets f).
Proof. by intros s r s' [= _ <-]. Qed.

Lemma unchanging_reads {S A} (f : S -> outcome A) : unchanging (reads f).
Proof. by intros s r s' [= _ <-]. Qed.

Lemma unchanging_bind {S A B} (m : M S A) (k : A -> M S B) :
  unchanging m -> (forall a, unchanging (k a)) -> unchanging (bind m k).
Proof.
  intros Hm Hk s r s'. unfold bind. destruct (m s) as [[a|e] s1] eqn:H.
  - apply Hm in H as ->. apply Hk.
  - apply Hm in H as ->. by intros [= _ <-].
Qed.

Lemma unchanging_list_comp {S A B} (f : A -> M S B) l :
  (forall x, unchanging (f x)) -> unchanging (list_comp l f).
Proof.
  intros Hf. induction l as [|x l IH]; cbn; [apply unchanging_ret|].
  apply unchanging_bind; [apply Hf|]. intros y.
  apply unchanging_bind; [apply IH|]. intros ys. apply unchanging_ret.
Qed.

(** A loop that raised did so in one iteration, after the ones before it
    had all returned. *)
Lemma for_each_Raise_inv {S A} (body : A -> M S unit) l s e s' :
  for_each l body s = (Raise e, s') ->
  exists l1 x l2 s1,
    l = l1 ++ x :: l2 /\ for_each l1 body s = (Ok tt, s1) /\ body x s1 = (Raise e, s').
Proof.
  revert s. induction l as [|x l IH]; intros s H; [discriminate|].
  cbn in H. apply bind_Raise_inv in H as [H | (u & s1 & Hx & H)].
  - exists [], x, l, s. eauto.
  - destruct (IH _ H) as (l1 & y & l2 & s2 & -> & H1 & H2).
    exists (x :: l1), y, l2, s2. split; [done|]. split; [|done].
    cbn. by rewrite (bind_Ok_step _ _ _ _ _ Hx).
Qed.

Lemma for_each_app {S A} (body : A -> M S unit) l1 l2 s s1 :
  for_each l1 body s = (Ok tt, s1) ->
  for_each (l1 ++ l2) body s = for_each l2 body s1.
Proof.
  revert s. induction l1 as [|x l1 IH]; intros s H; cbn in *.
  - by injection H as ->.
  - apply bind_Ok_inv in H as (u & s2 & Hx & H).
    rewrite (bind_Ok_step _ _ _ _ _ Hx). eauto.
Qed.

(** ** Dicts *)

Lemma dict_keys_dict_set {V} (d : list (string * V)) k v k' :
  k' ∈ dict_keys (dict_set d k v) <-> k' = k \/ k' ∈ dict_keys d.
Proof.
  unfold dict_keys. induction d as [|[k0 v0] d IH]; cbn.
  - rewrite list_elem_of_singleton, elem_of_nil. tauto.
  - case_decide; subst; cbn; rewrite !elem_of_cons; [|rewrite IH]; tauto.
Qed.

(** ** Strings and paths *)




(** The text of a number starts with a digit. *)
Lemma str_of_nat_head n :
  exists c s, str_of_nat n = String c s /\ c <> "/"%char /\ c <> "d"%char.
Proof.
  unfold str_of_nat.
  assert (Hn : Nat.to_uint n <> Nil).
  { rewrite <-(Unsigned.of_to n) at 1. rewrite Unsigned.to_of.
    apply DecimalFacts.unorm_nonnil. }
  destruct (Nat.to_uint n); [done| cbn; eauto 10 ..].
Qed.



Section Properties.

Context {C : Collaborators}.

(** ** [from_json] *)

(** C1.  [from_json] raises AttributeError on every input and leaves the
    world as it was: the first thing it does is to look up [pop] on the keys
    view of the dict.  So [Document.from_json(d.to_json())] produces no
    Document whose serialization could be compared. *)
Theorem from_json_raises (doc_dict : JsonDict) (w : World) :
  from_json doc_dict w = (Raise AttributeError, w).
Proof. reflexivity. Qed.

(** ** [find] *)

(** C6.  [find] raises AttributeError for every query and every field name,
    registered or not, and changes nothing: its receiver is the class, which
    has no [_indexers]. *)
Theorem find_raises (query : Query) (field_name : string) (s : St) :
  find query field_name s = (Raise AttributeError, s).
Proof. reflexivity. Qed.

(** The body alone, were its receiver the instance, does what the docstring
    of the class promises: it hands the query to the Indexer of the field. *)
Lemma find_body_instance_delegates (query : Query) field_name (s : St) indexer :
  _indexers s.1 !! field_name = Some indexer ->
  find_body TheInstance query field_name s
  = collaborator (CallIndex indexer) (Indexer_index indexer query) s.
Proof. intros H. unfold find_body, bind. cbn. by rewrite H. Qed.

(** ** [to_json] *)

Lemma dict_comp_keys {V} keys (value : string -> M St V) acc s out s' :
  dict_comp keys value acc s = (Ok out, s') ->
  forall k, k ∈ dict_keys out <-> k ∈ dict_keys acc \/ k ∈ keys.
Proof.
  revert acc s. induction keys as [|k0 keys IH]; intros acc s H k; cbn in H.
  - injection H as <- _. rewrite elem_of_nil. tauto.
  - apply bind_Ok_inv in H as (v & s1 & _ & H).
    rewrite (IH _ _ H k), dict_keys_dict_set, elem_of_cons. tauto.
Qed.

Lemma to_json_keys fields_arg (s s' : St) (out : JsonDict) :
  to_json fields_arg false s = (Ok out, s') ->
  forall k, k ∈ dict_keys out <-> k ∈ requested_fields fields_arg s /\ k <> Images.
Proof.
  intros H k. unfold to_json in H.
  apply bind_Ok_inv in H as (fs & s1 & Hfs & H).
  assert (fs = requested_fields fields_arg s /\ s1 = s) as [-> ->].
  { destruct fields_arg; cbn in Hfs; by injection Hfs as <- <-. }
  cbn in H. rewrite (dict_comp_keys _ _ _ _ _ _ H k), list_elem_of_filter.
  unfold dict_keys. cbn. rewrite elem_of_nil. tauto.
Qed.

(** C7.  With [with_images] false the result of [to_json] has exactly the
    requested names other than the images name as keys, so never the images
    name, listed or not; and an omitted [fields] stands for all registered
    fields. *)
Theorem to_json_without_images (fields_arg : option (list string)) (s s' : St) (out : JsonDict) :
  to_json fields_arg false s = (Ok out, s') ->
  (Images ∉ dict_keys out)
  /\ (forall k, k ∈ dict_keys out <-> k ∈ requested_fields fields_arg s /\ k <> Images)
  /\ (forall with_images, to_json None with_images s
        = to_json (Some (list_at s.2 (_fields s.1))) with_images s).
Proof.
  intros H. pose proof (to_json_keys _ _ _ _ H) as Hkeys.
  split; [|split; [done|]].
  - intros Hin. apply Hkeys in Hin. tauto.
  - intros with_images. reflexivity.
Qed.

(** Serializing reads the store and leaves it as it is. *)
Lemma dict_comp_unchanged {V} keys (value : string -> M St V) acc (s s' : St) r :
  (forall k s0 r0 s1, value k s0 = (r0, s1) -> s1 = s0) ->
  dict_comp keys value acc s = (r, s') -> s' = s.
Proof.
  intros Hv. revert acc s. induction keys as [|k keys IH]; intros acc s H; cbn in H.
  - by injection H as _ <-.
  - unfold bind in H. destruct (value k s) as [[v|e] s1] eqn:Hk.
    + apply Hv in Hk as ->. eauto.
    + apply Hv in Hk as ->. by injection H as _ <-.
Qed.

Lemma to_json_unchanged fields_arg with_images (s s' : St) r :
  to_json fields_arg with_images s = (r, s') -> s' = s.
Proof.
  unfold to_json. intros H. unfold bind at 1 in H.
  assert (Hfs : exists fs, match fields_arg with
                           | Some l => ret l
                           | None => fields
                           end s = (Ok fs, s)).
  { destruct fields_arg; cbn; eauto. }
  destruct Hfs as [fs Hfs]. rewrite Hfs in H.
  eapply dict_comp_unchanged; [|exact H].
  intros k s0 r0 s1. unfold bind, getattr, groups_to_json.
  intros Hk. repeat (case_match; simplify_eq); done.
Qed.

(** ** [_register_field] *)

Lemma register_field_Ok_inv field_name (s s' : St) u :
  _register_field field_name s = (Ok u, s') ->
  startswith field_name "_" = false
  /\ (field_name ∉ list_at s.2 (_fields s.1))
  /\ field_name <> "fields"
  /\ (field_name ∉ dir s.1)
  /\ exists sym indexer e',
       symbols s.1 = SymObj sym
       /\ DocSpanGroupIndexer (page_count sym) (ext s.2) = (Ok indexer, e')
       /\ s' = registered field_name (page_count sym) indexer e' s.
Proof.
  unfold _register_field, registered, bind, assert_, fields, gets, modify, reads,
    ret, raise, collaborator, symbols_page_count.
  cbn. intros H.
  repeat (case_match; simplify_eq; cbn in * ).
  repeat match goal with
         | H : bool_decide _ = true |- _ => apply bool_decide_eq_true in H
         | H : negb _ = true |- _ => apply negb_true_iff in H
         end.
  rewrite list_elem_of_singleton in *.
  repeat split; try done. eauto 10.
Qed.

(** An assertion of [_register_field] that fails does so before anything
    is mutated. *)
Lemma register_field_assert_unchanged field_name (s s' : St) msg :
  _register_field field_name s = (Raise (AssertionError msg), s') -> s' = s.
Proof.
  unfold _register_field, bind, assert_, fields, gets, modify, reads,
    ret, raise, collaborator, symbols_page_count.
  cbn. intros H.
  repeat (case_match; simplify_eq; cbn in * ); done.
Qed.

(** A name that is already in the list [_fields] refers to is refused. *)
Lemma register_field_present field_name (s : St) :
  startswith field_name "_" = false ->
  field_name ∈ list_at s.2 (_fields s.1) ->
  _register_field field_name s
  = (Raise (AssertionError "This field name already exists"), s).
Proof.
  intros Hu Hin. unfold _register_field, bind, assert_, fields, gets. cbn.
  rewrite Hu. cbn. rewrite bool_decide_eq_false_2; [done|]. by intros [].
Qed.

(** ** [_annotate] *)

Lemma bind_step_inv a (s : St) :
  exists r e',
    bind_step a s = (r, (s.1, set_ext e' (log_call (CallAnnotate a (oid s.1)) s.2)))
    /\ forall msg, r <> Raise (AssertionError msg).
Proof.
  unfold bind_step, bind, gets, collaborator, ret. cbn.
  destruct (Annotation_annotate a (oid s.1) (ext s.2)) as [[a'|e] e1]; eauto.
Qed.

Lemma bind_loop_inv anns (s s' : St) r :
  bind_loop anns s = (r, s') ->
  s'.1 = s.1 /\ same_registry s.2 s'.2
  /\ (forall msg, r <> Raise (AssertionError msg))
  /\ (r = Ok tt -> calls s'.2 = calls s.2 ++ map (fun a => CallAnnotate a (oid s.1)) anns).
Proof.
  unfold bind_loop. revert s. induction anns as [|a anns IH]; intros s H.
  - cbn in H. injection H as <- <-. rewrite app_nil_r. by repeat split.
  - cbn [for_each] in H. unfold bind at 1 in H.
    destruct (bind_step_inv a s) as (r1 & e' & Hb & Hr). rewrite Hb in H.
    destruct r1 as [u|e].
    + apply IH in H as (Hd & (Hl & Hn & Hds & Hf) & Hr' & Hc). cbn in *.
      repeat split; try done.
      intros ->. rewrite (Hc eq_refl), <-app_assoc. done.
    + injection H as <- <-. cbn. by repeat split.
Qed.

Lemma annotate_Ok_inv field_name anns (s s' : St) u :
  _annotate field_name anns s = (Ok u, s') ->
  exists sym indexer,
    startswith field_name "_" = false
    /\ (field_name ∉ list_at s.2 (_fields s.1))
    /\ field_name <> "fields"
    /\ (field_name ∉ dir s.1)
    /\ symbols s.1 = SymObj sym
    /\ s'.1 = set_attrs (insert field_name anns)
                (set_indexers (insert field_name indexer) s.1)
    /\ lists s'.2 = lists (list_append (_fields s.1) field_name s.2)
    /\ next_oid s'.2 = next_oid s.2 /\ dirs s'.2 = dirs s.2 /\ files s'.2 = files s.2
    /\ calls s'.2 = calls s.2
         ++ CallDocSpanGroupIndexer (page_count sym)
            :: map (fun a => CallAnnotate a (oid s.1)) anns.
Proof.
  unfold _annotate. intros H.
  apply bind_Ok_inv in H as (u1 & s1 & Hreg & H).
  apply bind_Ok_inv in H as (u2 & s2 & Hloop & H).
  apply register_field_Ok_inv in Hreg
    as (Hu & Hnew & Hf & Hdir & sym & indexer & e' & Hsym & _ & ->).
  destruct u2. apply bind_loop_inv in Hloop as (Hd & (Hl & Hn & Hds & Hfs) & _ & Hc).
  specialize (Hc eq_refl).
  unfold setattr in H. rewrite decide_False in H by done.
  unfold modify in H. simplify_eq. unfold registered in *.
  cbn in Hd, Hl, Hn, Hds, Hfs, Hc. cbn [fst snd].
  exists sym, indexer. rewrite Hd, Hl, Hn, Hds, Hfs, Hc, <-app_assoc.
  by repeat split.
Qed.

(** An AssertionError out of [_annotate] comes from the registration, and
    the store is the one before the call. *)
Lemma annotate_assert_unchanged field_name anns (s s' : St) msg :
  _annotate field_name anns s = (Raise (AssertionError msg), s') -> s' = s.
Proof.
  unfold _annotate. intros H.
  apply bind_Raise_inv in H as [H | (u1 & s1 & _ & H)].
  { by apply register_field_assert_unchanged in H. }
  apply bind_Raise_inv in H as [H | (u2 & s2 & _ & H)].
  { apply bind_loop_inv in H as (_ & _ & Hr & _). by destruct (Hr msg). }
  unfold setattr in H. case_decide; discriminate.
Qed.

Lemma attrs_in_dir (d : Document) name l :
  attrs d !! name = Some l -> name ∈ dir d.
Proof.
  intros H. unfold dir. rewrite !elem_of_app. right. left.
  apply list_elem_of_fmap. exists (name, l). split; [done|].
  by apply elem_of_map_to_list.
Qed.

Lemma getattr_injected name l (s : St) :
  attrs s.1 !! name = Some l -> name <> "fields" ->
  getattr name s = (Ok (VAnnotations l), s).
Proof. intros H Hf. unfold getattr. rewrite decide_False by done. by rewrite H. Qed.

Lemma annotate_loop_inv annotations (s s' : St) :
  for_each annotations (fun kv => _annotate kv.1 kv.2) s = (Ok tt, s') ->
  oid s'.1 = oid s.1 /\ symbols s'.1 = symbols s.1
  /\ (forall name l, attrs s.1 !! name = Some l -> attrs s'.1 !! name = Some l)
  /\ (forall name anns, (name, anns) ∈ annotations ->
        attrs s'.1 !! name = Some anns /\ name <> "fields")
  /\ (forall sym, symbols s.1 = SymObj sym ->
        calls s'.2 = calls s.2
          ++ flat_map (fun kv => field_calls (page_count sym) (oid s.1) kv.2) annotations).
Proof.
  revert s. induction annotations as [|[n anns] rest IH]; intros s H.
  - cbn in H. injection H as <-. repeat apply conj; try done.
    + intros name anns Hin. by apply elem_of_nil in Hin.
    + intros sym _. cbn. by rewrite app_nil_r.
  - cbn [for_each] in H. apply bind_Ok_inv in H as (u & s1 & Hone & H).
    apply annotate_Ok_inv in Hone
      as (sym & indexer & _ & _ & Hf & Hdir & Hsym & Hd & _ & _ & _ & _ & Hc).
    cbn [fst snd] in *.
    apply IH in H as (Hoid & Hsyms & Hkeep & Hin & Hcalls).
    rewrite Hd in Hoid, Hsyms, Hkeep, Hcalls. cbn in Hoid, Hsyms, Hkeep, Hcalls.
    assert (Hkeep' : forall name l, attrs s.1 !! name = Some l ->
                       attrs s'.1 !! name = Some l).
    { intros name l Hl. apply Hkeep. rewrite lookup_insert_ne; [done|].
      intros ->. by apply Hdir, attrs_in_dir with l. }
    repeat apply conj; try done.
    + intros name anns' Hkv.
      apply elem_of_cons in Hkv as [[= -> ->] | Hkv]; [|by apply Hin].
      split; [|done]. apply Hkeep. by rewrite lookup_insert_eq.
    + intros sym' Hsym'. rewrite Hsym in Hsym'. injection Hsym' as <-.
      rewrite (Hcalls sym Hsym), Hc. cbn. by rewrite <-app_assoc.
Qed.


(** ** [_add] *)

Lemma check_step_unchanged a (s s' : St) r :
  check_step a s = (r, s') -> s' = s.
Proof.
  unfold check_step, bind, collaborator_read, gets, assert_, ret, raise.
  intros H. repeat (case_match; simplify_eq); done.
Qed.

Lemma check_loop_unchanged anns (s s' : St) r :
  for_each anns check_step s = (r, s') -> s' = s.
Proof.
  revert s. induction anns as [|a anns IH]; intros s H; cbn in H.
  - by injection H as _ <-.
  - unfold bind in H. destruct (check_step a s) as [[u|e] s1] eqn:Ha.
    + apply check_step_unchanged in Ha as ->. eauto.
    + apply check_step_unchanged in Ha as ->. by injection H as _ <-.
Qed.

(** The loop passes exactly when the [doc] of every Annotation is a
    Document: which Document it is plays no part. *)
Lemma check_loop_Ok anns (s : St) :
  for_each anns check_step s = (Ok tt, s)
  <-> Forall (fun a => exists o, Annotation_doc a (ext s.2) = Ok (RDocument o)) anns.
Proof.
  induction anns as [|a anns IH]; cbn.
  - split; [constructor | done].
  - rewrite Forall_cons, <-IH. unfold bind at 1.
    unfold check_step at 1, bind, collaborator_read, gets, assert_, ret, raise.
    destruct (Annotation_doc a (ext s.2)) as [[| o |]|e]; cbn;
      split; try discriminate; try (by intros [[? [=]] _]); eauto.
    by intros [_ ?].
Qed.

Lemma add_Raise_unchanged field_name anns (s s' : St) e :
  _add field_name anns s = (Raise e, s') -> s' = s.
Proof.
  unfold _add. intros H.
  unfold bind at 1, gets at 1 in H. unfold bind at 1 in H.
  unfold assert_ at 1 in H. case_bool_decide; [|by injection H as _ <-].
  cbn in H. unfold bind at 1 in H. unfold assert_ at 1 in H.
  case_bool_decide; [|by injection H as _ <-].
  cbn in H. unfold bind at 1 in H.
  destruct (for_each anns _ s) as [[u|e0] s1] eqn:Hloop.
  - apply (check_loop_unchanged anns) in Hloop as ->.
    unfold setattr in H. case_decide; [by injection H as _ <-|discriminate].
  - apply (check_loop_unchanged anns) in Hloop as ->. by injection H as _ <-.
Qed.

Lemma add_Ok_iff field_name anns (s s' : St) :
  _add field_name anns s = (Ok tt, s')
  <-> field_name ∈ list_at s.2 (_fields s.1)
      /\ is_Some (_indexers s.1 !! field_name)
      /\ Forall (fun a => exists o, Annotation_doc a (ext s.2) = Ok (RDocument o)) anns
      /\ field_name <> "fields"
      /\ s' = (set_attrs (insert field_name anns) s.1, s.2).
Proof.
  unfold _add.
  unfold bind at 1, gets at 1. unfold bind at 1. unfold assert_ at 1.
  case_bool_decide as Hin; [|split; [discriminate | tauto]].
  cbn. unfold bind at 1. unfold assert_ at 1.
  case_bool_decide as Hix; [|split; [discriminate | tauto]].
  cbn. unfold bind at 1.
  destruct (for_each anns _ s) as [[[]|e0] s1] eqn:Hloop.
  - pose proof (check_loop_unchanged anns _ _ _ Hloop) as ->.
    apply (check_loop_Ok anns) in Hloop.
    unfold setattr. case_decide as Hf; cbn.
    + split; [discriminate | tauto].
    + split; [intros [= <-]; tauto | by intros (_ & _ & _ & _ & ->)].
  - split; [discriminate|]. intros (_ & _ & Hall & _).
    apply (check_loop_Ok anns) in Hall.
    pose proof (check_loop_unchanged anns _ _ _ Hloop) as ->.
    unfold check_step in Hall. rewrite Hall in Hloop. discriminate.
Qed.

(** C5.  A registered field, and a sequence of Annotations each of which
    references a Document other than the receiver: [_add] does not fail.  It
    sets the attribute to the sequence and touches neither the Indexers nor
    anything outside the instance.  The comparison [annotation.doc == self]
    cannot tell two Documents apart. *)
Theorem add_accepts_other_documents field_name anns (s : St) :
  field_name ∈ list_at s.2 (_fields s.1) ->
  is_Some (_indexers s.1 !! field_name) ->
  field_name <> "fields" ->
  Forall (fun a => exists o, o <> oid s.1
                    /\ Annotation_doc a (ext s.2) = Ok (RDocument o)) anns ->
  _add field_name anns s = (Ok tt, (set_attrs (insert field_name anns) s.1, s.2))
  /\ _indexers (set_attrs (insert field_name anns) s.1) = _indexers s.1.
Proof.
  intros Hin Hix Hf Hall. split; [|done].
  apply add_Ok_iff. repeat apply conj; try done.
  eapply Forall_impl; [exact Hall|]. intros a (o & _ & Ho). eauto.
Qed.

(** X3.  A part of the contract of [add] that the code does keep: a field
    name missing from the field list or from the Indexers ends in an
    AssertionError, and nothing changes. *)
Lemma add_unregistered_fails field_name anns (s : St) :
  field_name ∉ list_at s.2 (_fields s.1) \/ _indexers s.1 !! field_name = None ->
  _add field_name anns s = (Raise (AssertionError ""), s).
Proof.
  intros H. unfold _add.
  unfold bind at 1, gets at 1. unfold bind at 1. unfold assert_ at 1.
  case_bool_decide as Hin; [|done]. cbn. unfold bind at 1. unfold assert_ at 1.
  case_bool_decide as Hix; [|done]. destruct H as [H|H]; [done|].
  rewrite H in Hix. by destruct Hix.
Qed.

(** X4.  So does an Annotation whose [doc] is [None]: the call raises and
    nothing changes. *)
Lemma add_unbound_fails field_name anns a (s : St) :
  field_name ∈ list_at s.2 (_fields s.1) ->
  is_Some (_indexers s.1 !! field_name) ->
  a ∈ anns ->
  Annotation_doc a (ext s.2) = Ok RNone ->
  exists e, _add field_name anns s = (Raise e, s).
Proof.
  intros Hin Hix Ha Hdoc.
  destruct (_add field_name anns s) as [[[]|e] s'] eqn:H.
  - apply add_Ok_iff in H as (_ & _ & Hall & _).
    rewrite Forall_forall in Hall. destruct (Hall a Ha) as [o Ho]. congruence.
  - pose proof (add_Raise_unchanged _ _ _ _ _ H) as ->. eauto.
Qed.

(** ** Failure in a call with several fields *)

Lemma kwargs_loop_abort body annotations (s s' : St) msg :
  (forall n a s0 s1 m, body n a s0 = (Raise (AssertionError m), s1) -> s1 = s0) ->
  kwargs_loop body annotations s = (Raise (AssertionError msg), s') ->
  exists done name anns rest,
    annotations = done ++ (name, anns) :: rest
    /\ kwargs_loop body done s = (Ok tt, s')
    /\ body name anns s' = (Raise (AssertionError msg), s').
Proof.
  intros Hbody. unfold kwargs_loop. case_bool_decide as Hself; [discriminate|].
  intros H. apply for_each_Raise_inv in H as (l1 & [n a] & l2 & s1 & -> & H1 & H2).
  cbn [fst snd] in H2. pose proof (Hbody _ _ _ _ _ H2) as ->.
  exists l1, n, a, l2. rewrite bool_decide_eq_false_2; [done|].
  intros Hin. apply Hself. unfold dict_keys in *. rewrite fmap_app, elem_of_app. by left.
Qed.

(** C3.  When [annotate] or [add] ends in a failed assertion, the keywords
    split into the ones before the failing one and the rest; the store left
    behind is the one the call would have left had it been given only the
    first part (they are committed), and it is also the store from which the
    failing field raises, so that field left no trace: neither in the field
    list, nor in the Indexers, nor as an attribute. *)
Theorem violation_keeps_earlier_fields annotations (s s' : St) msg :
  (annotate annotations s = (Raise (AssertionError msg), s') ->
   exists done name anns rest,
     annotations = done ++ (name, anns) :: rest
     /\ annotate done s = (Ok tt, s')
     /\ _annotate name anns s' = (Raise (AssertionError msg), s'))
  /\ (add annotations s = (Raise (AssertionError msg), s') ->
      exists done name anns rest,
        annotations = done ++ (name, anns) :: rest
        /\ add done s = (Ok tt, s')
        /\ _add name anns s' = (Raise (AssertionError msg), s')).
Proof.
  split; intros H.
  - apply (kwargs_loop_abort _annotate); [|exact H].
    intros n a s0 s1 m. apply annotate_assert_unchanged.
  - apply (kwargs_loop_abort _add); [|exact H].
    intros n a s0 s1 m. apply add_Raise_unchanged.
Qed.

(** ** The field list is shared *)

Lemma list_at_append_eq (w : World) l x :
  list_at (list_append l x w) l = list_at w l ++ [x].
Proof. unfold list_at at 1, list_append. cbn. by rewrite lookup_insert_eq. Qed.

(** Every successful [_annotate] appends its name to the list that
    [_fields] refers to, and no name ever leaves that list. *)
Lemma annotate_loop_fields annotations (s s' : St) :
  for_each annotations (fun kv => _annotate kv.1 kv.2) s = (Ok tt, s') ->
  _fields s'.1 = _fields s.1
  /\ (forall x, x ∈ list_at s.2 (_fields s.1) -> x ∈ list_at s'.2 (_fields s.1))
  /\ (forall name anns, (name, anns) ∈ annotations ->
        name ∈ list_at s'.2 (_fields s.1) /\ startswith name "_" = false).
Proof.
  revert s. induction annotations as [|[n anns] rest IH]; intros s H.
  - cbn in H. injection H as <-. repeat apply conj; try done.
    intros name anns Hin. by apply elem_of_nil in Hin.
  - cbn [for_each] in H. apply bind_Ok_inv in H as (u & s1 & Hone & H).
    apply annotate_Ok_inv in Hone
      as (sym & indexer & Hu & _ & _ & _ & _ & Hd & Hl & _).
    cbn [fst snd] in *.
    apply IH in H as (Hfields & Hkeep & Hin).
    assert (Hf1 : _fields s1.1 = _fields s.1) by by rewrite Hd.
    assert (Hl1 : list_at s1.2 (_fields s.1) = list_at s.2 (_fields s.1) ++ [n]).
    { unfold list_at at 1. rewrite Hl. apply list_at_append_eq. }
    rewrite Hf1 in Hfields, Hkeep, Hin. rewrite Hl1 in Hkeep.
    repeat apply conj; try done.
    + intros x Hx. apply Hkeep, elem_of_app. by left.
    + intros name anns' Hkv.
      apply elem_of_cons in Hkv as [[= -> ->] | Hkv]; [|by apply Hin with anns'].
      split; [|done]. apply Hkeep, elem_of_app. right. by apply list_elem_of_singleton.
Qed.

Lemma fields_kept_refl w : fields_kept w w.
Proof. by intros l x. Qed.

Lemma fields_kept_trans w1 w2 w3 :
  fields_kept w1 w2 -> fields_kept w2 w3 -> fields_kept w1 w3.
Proof. intros H1 H2 l x Hx. by apply H2, H1. Qed.

Lemma fields_kept_lists w w' : lists w' = lists w -> fields_kept w w'.
Proof. intros H l x. unfold list_at. by rewrite H. Qed.

Lemma list_append_kept w l y : fields_kept w (list_append l y w).
Proof.
  intros l' x Hx. destruct (decide (l = l')) as [->|Hne].
  - rewrite list_at_append_eq. apply elem_of_app. by left.
  - unfold list_at, list_append. cbn. by rewrite lookup_insert_ne.
Qed.

Lemma register_field_kept field_name (s s' : St) r :
  _register_field field_name s = (r, s') -> fields_kept s.2 s'.2.
Proof.
  unfold _register_field, bind, assert_, fields, gets, modify, reads,
    ret, raise, collaborator, symbols_page_count.
  cbn. intros H.
  repeat (case_match; simplify_eq; cbn in * );
    first [apply fields_kept_refl | apply list_append_kept].
Qed.

(** A loop keeps what each of its iterations keeps. *)
Lemma for_each_related {S A} (R : S -> S -> Prop) (body : A -> M S unit) l s r s' :
  (forall s0, R s0 s0) -> (forall s0 s1 s2, R s0 s1 -> R s1 s2 -> R s0 s2) ->
  (forall x s0 r0 s1, body x s0 = (r0, s1) -> R s0 s1) ->
  for_each l body s = (r, s') -> R s s'.
Proof.
  intros Hrefl Htrans Hbody. revert s.
  induction l as [|x l IH]; intros s H; cbn in H.
  - injection H as _ <-. apply Hrefl.
  - unfold bind in H. destruct (body x s) as [[u|e] s1] eqn:Hx.
    + eapply Htrans; [by eapply Hbody | by apply IH].
    + injection H as _ <-. by eapply Hbody.
Qed.

Lemma annotate_field_kept field_name anns (s s' : St) r :
  _annotate field_name anns s = (r, s') -> fields_kept s.2 s'.2.
Proof.
  unfold _annotate. intros H. unfold bind at 1 in H.
  destruct (_register_field field_name s) as [[u|e] s1] eqn:Hreg.
  2:{ injection H as _ <-. by eapply register_field_kept. }
  apply register_field_kept in Hreg. unfold bind at 1 in H.
  change (for_each anns (fun annotation => _)) with (bind_loop anns) in H.
  destruct (bind_loop anns s1) as [[u2|e] s2] eqn:Hloop.
  - apply (bind_loop_inv anns) in Hloop as (_ & (Hl & _) & _).
    apply fields_kept_lists in Hl.
    unfold setattr in H. case_decide; injection H as _ <-;
      eapply fields_kept_trans; eauto.
  - apply (bind_loop_inv anns) in Hloop as (_ & (Hl & _) & _).
    apply fields_kept_lists in Hl. injection H as _ <-.
    eapply fields_kept_trans; eauto.
Qed.

Lemma annotate_kept annotations (s s' : St) r :
  annotate annotations s = (r, s') -> fields_kept s.2 s'.2.
Proof.
  unfold annotate. case_bool_decide.
  - intros [= _ <-]. apply fields_kept_refl.
  - apply (for_each_related (fun s0 s1 : St => fields_kept s0.2 s1.2)).
    + intros s0. apply fields_kept_refl.
    + intros s0 s1 s2. apply fields_kept_trans.
    + intros [n a] s0 r0 s1. apply annotate_field_kept.
Qed.

Lemma add_field_world field_name anns (s s' : St) r :
  _add field_name anns s = (r, s') -> s'.2 = s.2.
Proof.
  destruct r as [[]|e]; intros H.
  - by apply add_Ok_iff in H as (_ & _ & _ & _ & ->).
  - by apply add_Raise_unchanged in H as ->.
Qed.

Lemma add_world annotations (s s' : St) r :
  add annotations s = (r, s') -> s'.2 = s.2.
Proof.
  unfold add. case_bool_decide; [by intros [= _ <-]|].
  apply (for_each_related (fun s0 s1 : St => s1.2 = s0.2)).
  - done.
  - intros s0 s1 s2 H1 H2. by rewrite H2.
  - intros [n a] s0 r0 s1. apply add_field_world.
Qed.

Lemma open_write_lists path content (s s' : St) r :
  open_write path content s = (r, s') -> lists s'.2 = lists s.2.
Proof. unfold open_write. case_bool_decide; by intros [= _ <-]. Qed.

Lemma save_lists path fields_arg with_images images_in_json (s s' : St) r :
  save path fields_arg with_images images_in_json s = (r, s') ->
  lists s'.2 = lists s.2.
Proof.
  unfold save. intros H. unfold bind at 1 in H.
  assert (Hguard : exists r0,
             (if with_images && negb images_in_json
              then is_dir <- isdir path ;;
                   assert_ is_dir
                     "When with_images=True and images_in_json=False, it requires the path to be a folder"
              else ret tt) s = (r0, s)).
  { destruct (with_images && negb images_in_json); [|by eexists].
    unfold bind, isdir, gets, assert_. case_bool_decide; by eexists. }
  destruct Hguard as [r0 Hguard]. rewrite Hguard in H.
  destruct r0 as [u|e]; [|by injection H as _ <-].
  unfold bind at 1 in H.
  destruct (to_json fields_arg _ s) as [[doc_json|e] s1] eqn:Hjson;
    apply to_json_unchanged in Hjson as ->; [|by injection H as _ <-].
  destruct (with_images && negb images_in_json); [|by eapply open_write_lists].
  unfold bind in H.
  destruct (open_write _ _ s) as [[u1|e] s1] eqn:Hw; apply open_write_lists in Hw;
    [|by injection H as _ <-].
  rewrite <-Hw. clear Hw Hguard. revert H. generalize s1. clear. intros s H.
  unfold save_images, bind, gets in H.
  destruct (images s.1) as [|l|[|j l]]; try by injection H as _ <-.
  revert H. apply (for_each_related (fun s0 s1 : St => lists s1.2 = lists s0.2)).
  - done.
  - intros s0 s1 s2 H1 H2. by rewrite H2.
  - intros x s0 r0 s1. apply open_write_lists.
Qed.

Lemma load_unchanging path : unchanging (load path).
Proof.
  unfold load. apply unchanging_bind; [apply unchanging_gets|]. intros is_dir.
  apply unchanging_bind.
  - destruct is_dir; [|apply unchanging_ret].
    apply unchanging_bind; [apply unchanging_gets|]. intros image_files.
    apply unchanging_bind; [apply unchanging_reads|]. intros keyed.
    apply unchanging_bind; [|intros images; apply unchanging_ret].
    apply unchanging_list_comp. intros x w r w'. unfold Image_load. by intros [= _ <-].
  - intros found. apply unchanging_bind.
    + intros w r w'. unfold open_read_json. by intros [= _ <-].
    + intros json_data. apply unchanging_bind; [|intros doc; apply unchanging_ret].
      intros w r w'. by intros [= _ <-].
Qed.

Lemma later_kept w w' : later w w' -> fields_kept w w'.
Proof.
  induction 1 as [w | w w' sy im _ IH | w w' path _ IH | w w' d c _ IH].
  - apply fields_kept_refl.
  - eapply fields_kept_trans; [exact IH|]. by apply fields_kept_lists.
  - eapply fields_kept_trans; [exact IH|].
    destruct (load path w') as [r w2] eqn:Hl.
    apply load_unchanging in Hl as ->. apply fields_kept_refl.
  - eapply fields_kept_trans; [exact IH|]. destruct c; cbn.
    + destruct (annotate annotations (d, w')) as [r s2] eqn:Hc.
      by apply annotate_kept in Hc.
    + destruct (add annotations (d, w')) as [r s2] eqn:Hc.
      apply add_world in Hc. cbn in Hc. apply fields_kept_lists. by f_equal.
    + destruct (to_json fields_arg with_images (d, w')) as [r s2] eqn:Hc.
      apply to_json_unchanged in Hc as ->. apply fields_kept_refl.
    + destruct (save path fields_arg with_images images_in_json (d, w')) as [r s2] eqn:Hc.
      apply save_lists in Hc. by apply fields_kept_lists.
    + apply fields_kept_refl.
Qed.

(** A name registered through [annotate] by a Document built by [__init__]
    is in the field list of every Document constructed afterwards. *)
Lemma registered_name_reaches annotations name anns (a a' : Document) (w w' w'' : World)
    (symbols : PySymbols) (images : PyImages) :
  _fields a = Document_DEFAULT_FIELDS ->
  annotate annotations (a, w) = (Ok tt, (a', w')) ->
  (name, anns) ∈ annotations ->
  later w' w'' ->
  let b := construct symbols images w'' in
  name ∈ list_at b.2 (_fields b.1) /\ startswith name "_" = false /\ name <> "self".
Proof.
  intros Ha H Hin Hlater b. unfold annotate in H.
  case_bool_decide as Hself; [discriminate|].
  apply annotate_loop_fields in H as (_ & _ & Hnames).
  destruct (Hnames _ _ Hin) as [Hname Hu]. cbn [fst snd] in Hname. rewrite Ha in Hname.
  repeat apply conj; [|done|].
  - by apply (later_kept _ _ Hlater) in Hname.
  - intros ->. apply Hself. unfold dict_keys. apply list_elem_of_fmap.
    by exists ("self", anns).
Qed.

(** C10.  Once some Document, built by [__init__], has registered [name]
    through [annotate], every Document constructed afterwards, whatever
    happened in between, has [name] in its field list from the start and no
    Indexer for it, and its own [annotate] under that name is refused as a
    duplicate and changes nothing. *)
Theorem registration_is_shared annotations name anns (a a' : Document) (w w' w'' : World)
    (symbols : PySymbols) (images : PyImages) :
  _fields a = Document_DEFAULT_FIELDS ->
  annotate annotations (a, w) = (Ok tt, (a', w')) ->
  (name, anns) ∈ annotations ->
  later w' w'' ->
  let b := construct symbols images w'' in
  name ∈ list_at b.2 (_fields b.1)
  /\ _indexers b.1 !! name = None
  /\ forall anns',
       annotate [(name, anns')] b
       = (Raise (AssertionError "This field name already exists"), b).
Proof.
  intros Ha H Hin Hlater b.
  destruct (registered_name_reaches _ _ _ _ _ _ _ _ symbols images Ha H Hin Hlater)
    as (Hb & Hu & Hself).
  repeat apply conj; [done | done |].
  intros anns'. unfold annotate. rewrite bool_decide_eq_false_2.
  - cbn [for_each fst snd]. apply bind_Raise_step.
    unfold _annotate. apply bind_Raise_step. by apply register_field_present.
  - unfold dict_keys. cbn. by rewrite list_elem_of_singleton.
Qed.

(** ** [save] *)







(** ** [load] *)

Lemma never_returns_bind_l {S A B} (m : M S A) (k : A -> M S B) :
  never_returns m -> never_returns (bind m k).
Proof.
  intros Hm s. destruct (Hm s) as (e & s' & H). exists e, s'.
  by apply bind_Raise_step.
Qed.

Lemma never_returns_bind_r {S A B} (m : M S A) (k : A -> M S B) :
  (forall a, never_returns (k a)) -> never_returns (bind m k).
Proof.
  intros Hk s. unfold bind. destruct (m s) as [[a|e] s1]; [apply Hk | eauto].
Qed.

(** C9.  [load] returns no Document, whatever the path and the file system:
    when the JSON file is there and parses, the call of [from_json] raises,
    and before that only other exceptions can end the call. *)
Theorem load_never_returns (path : string) (w : World) :
  exists e w', load path w = (Raise e, w').
Proof.
  revert w. change (never_returns (load path)). unfold load.
  do 3 (apply never_returns_bind_r; intros ?).
  apply never_returns_bind_l. intros w. by exists AttributeError, w.
Qed.


(** ... and the sort of the image files is by page number, and stable. *)
Lemma insert_by_key_perm {A} (x : Z * A) l : insert_by_key x l ≡ₚ x :: l.
Proof.
  induction l as [|y l IH]; cbn; [done|].
  case_match; [done|]. rewrite IH. apply Permutation_swap.
Qed.

Lemma sort_by_key_perm {A} (l : list (Z * A)) : sort_by_key l ≡ₚ l.
Proof.
  unfold sort_by_key. induction l as [|x l IH]; cbn; [done|].
  by rewrite insert_by_key_perm, IH.
Qed.

Lemma insert_by_key_sorted {A} (x : Z * A) l :
  Sorted (fun a b => (a.1 <= b.1)%Z) l ->
  Sorted (fun a b => (a.1 <= b.1)%Z) (insert_by_key x l).
Proof.
  induction 1 as [|y l Hs IH Hhd]; cbn.
  - by repeat constructor.
  - destruct (Z.leb_spec x.1 y.1) as [Hle|Hlt].
    + constructor; [by constructor | by constructor].
    + constructor; [done|].
      destruct l as [|z l]; cbn in *.
      * constructor. lia.
      * destruct (Z.leb_spec x.1 z.1); constructor; [lia|].
        by inversion Hhd.
Qed.

Lemma sort_by_key_sorted {A} (l : list (Z * A)) :
  Sorted (fun a b => (a.1 <= b.1)%Z) (sort_by_key l).
Proof.
  unfold sort_by_key. induction l as [|x l IH]; cbn; [constructor|].
  by apply insert_by_key_sorted.
Qed.

(** ** The registry invariant *)

(** The first Document of a freshly defined class satisfies it, ... *)
Lemma first_document_consistent e ds fl (symbols : PySymbols) (images : PyImages) :
  registry_consistent (construct symbols images (class_defined e ds fl)).
Proof.
  intros f Hf Hs Hi.
  change (f ∈ default [] (({[ Document_DEFAULT_FIELDS := [Symbols; Images] ]}
                             : gmap loc (list string)) !! Document_DEFAULT_FIELDS)) in Hf.
  rewrite lookup_singleton_eq in Hf. cbn in Hf.
  apply elem_of_cons in Hf as [->|Hf]; [done|].
  apply list_elem_of_singleton in Hf as ->. done.
Qed.

(** ... and the methods of a Document keep it for that Document. *)
Lemma annotate_keeps_consistent annotations (s s' : St) :
  registry_consistent s ->
  annotate annotations s = (Ok tt, s') ->
  registry_consistent s'.
Proof.
  unfold annotate. case_bool_decide; [discriminate|]. clear.
  revert s. induction annotations as [|[n anns] rest IH]; intros s Hs H.
  - cbn in H. by injection H as <-.
  - cbn [for_each] in H. apply bind_Ok_inv in H as (u & s1 & Hone & H).
    apply (IH s1); [|done].
    apply annotate_Ok_inv in Hone
      as (sym & indexer & _ & _ & _ & _ & _ & Hd & Hl & _).
    cbn [fst snd] in *. intros f Hf Hsy Him. rewrite Hd in Hf |- *. cbn in Hf |- *.
    unfold list_at in Hf. rewrite Hl in Hf.
    change (f ∈ list_at (list_append (_fields s.1) n s.2) (_fields s.1)) in Hf.
    rewrite list_at_append_eq in Hf. apply elem_of_app in Hf as [Hf|Hf].
    + destruct (decide (n = f)) as [->|Hne].
      * rewrite lookup_insert_eq. eauto.
      * rewrite lookup_insert_ne by done. by apply Hs.
    + apply list_elem_of_singleton in Hf as ->. rewrite lookup_insert_eq. eauto.
Qed.

(** X1.  Registering the same name a second time on the same Document is
    refused, and nothing changes. *)
Theorem register_field_twice field_name (s s1 : St) :
  _register_field field_name s = (Ok tt, s1) ->
  _register_field field_name s1
  = (Raise (AssertionError "This field name already exists"), s1).
Proof.
  intros H.
  apply register_field_Ok_inv in H as (Hu & _ & _ & _ & sym & ix & e' & _ & _ & ->).
  apply register_field_present; [done|].
  unfold registered. cbn [fst snd]. change (_fields (set_indexers _ s.1)) with (_fields s.1).
  change (field_name ∈ list_at (list_append (_fields s.1) field_name s.2) (_fields s.1)).
  rewrite list_at_append_eq. apply elem_of_app. right. by apply list_elem_of_singleton.
Qed.

(** X5.  The sort that [load] applies to the image files orders them by
    page number and loses none. *)
Theorem sort_by_key_numeric {A} (l : list (Z * A)) :
  sort_by_key l ≡ₚ l /\ Sorted (fun a b => (a.1 <= b.1)%Z) (sort_by_key l).
Proof. split; [apply sort_by_key_perm | apply sort_by_key_sorted]. Qed.

(** X2.  A Document that satisfies the invariant keeps it through its own
    [annotate] and [add] calls that return. *)
Theorem own_calls_keep_registry annotations (s s' : St) :
  registry_consistent s ->
  (annotate annotations s = (Ok tt, s') -> registry_consistent s')
  /\ (add annotations s = (Ok tt, s') -> registry_consistent s').
Proof.
  intros Hs. split; intros H.
  - by apply (annotate_keeps_consistent annotations s).
  - unfold add in H. case_bool_decide; [discriminate|].
    assert (Hrel : registry_consistent s -> registry_consistent s'); [|by apply Hrel].
    revert H.
    apply (for_each_related
             (fun s0 s1 : St => registry_consistent s0 -> registry_consistent s1)).
    + done.
    + eauto.
    + intros [n a0] s0 r0 s1 Hadd Hc. destruct r0 as [[]|e].
      * by apply add_Ok_iff in Hadd as (_ & _ & _ & _ & ->).
      * by apply add_Raise_unchanged in Hadd as ->.
Qed.

(** C2.  A Document built by [__init__] registers [name], which is not one
    of the two reserved names, through [annotate].  That Document keeps the
    invariant if it had it.  Any Document constructed afterwards has [name]
    in its field list and no Indexer: it breaks the invariant from the
    moment it is constructed. *)
Theorem fresh_document_breaks_registry annotations name anns (a a' : Document)
    (w w' w'' : World) (symbols : PySymbols) (images : PyImages) :
  _fields a = Document_DEFAULT_FIELDS ->
  annotate annotations (a, w) = (Ok tt, (a', w')) ->
  (name, anns) ∈ annotations ->
  name <> Symbols -> name <> Images ->
  later w' w'' ->
  (registry_consistent (a, w) -> registry_consistent (a', w'))
  /\ ~ registry_consistent (construct symbols images w'').
Proof.
  intros Ha H Hin Hs Hi Hlater. split.
  - intros Hc. by apply (annotate_keeps_consistent annotations (a, w)).
  - destruct (registered_name_reaches _ _ _ _ _ _ _ _ symbols images Ha H Hin Hlater)
      as (Hb & _ & _).
    intros Hcons. by destruct (Hcons name Hb Hs Hi) as [x Hx].
Qed.

(** ** More on registration *)

(** X7.  [_register_field] is refused with an AssertionError exactly for a
    name that starts with an underscore, is already in the field list, or
    is an attribute the instance already has (its own, its class's, an
    inherited one; [fields] is among them); and a refusal changes
    nothing. *)
Theorem register_field_refused_iff field_name (s : St) :
  (exists msg, _register_field field_name s = (Raise (AssertionError msg), s))
  <-> (startswith field_name "_" = true
       \/ field_name ∈ list_at s.2 (_fields s.1)
       \/ field_name ∈ dir s.1).
Proof.
  assert (Hf : "fields" ∈ dir s.1).
  { unfold dir. rewrite !elem_of_app. right. right.
    apply elem_of_cons. right. apply elem_of_cons. by left. }
  unfold _register_field, bind, assert_, fields, gets, modify, reads,
    ret, raise, collaborator, symbols_page_count.
  cbn [fst snd].
  destruct (startswith field_name "_") eqn:Hu; cbn [negb].
  { split; [by left | destruct s; by eauto]. }
  case_bool_decide as Hnew; cycle 1.
  { split; [by intros _; right; left | by eauto]. }
  case_bool_decide as Hfields; cycle 1.
  { apply list_elem_of_singleton in Hfields as ->.
    split; [by intros _; right; right | by eauto]. }
  case_bool_decide as Hdir; cycle 1.
  { split; [by intros _; right; right | by eauto]. }
  split; [|intros [?|[?|?]]; done].
  intros (msg & H). exfalso.
  repeat (case_match; simplify_eq; cbn in * ).
Qed.

Lemma list_at_lists (w w' : World) l : lists w' = lists w -> list_at w' l = list_at w l.
Proof. unfold list_at. by intros ->. Qed.

Lemma annotate_loop_appends annotations (s s' : St) :
  for_each annotations (fun kv => _annotate kv.1 kv.2) s = (Ok tt, s') ->
  _fields s'.1 = _fields s.1
  /\ list_at s'.2 (_fields s.1) = list_at s.2 (_fields s.1) ++ annotations.*1
  /\ dom (_indexers s'.1) = dom (_indexers s.1) ∪ list_to_set annotations.*1
  /\ NoDup annotations.*1
  /\ (forall n, n ∈ annotations.*1 -> n ∉ list_at s.2 (_fields s.1)).
Proof.
  revert s. induction annotations as [|[n anns] rest IH]; intros s H.
  - cbn in H. injection H as <-. cbn. rewrite app_nil_r.
    repeat apply conj; try done;
      [by rewrite (right_id_L ∅ (∪)) | constructor | by intros n ?%elem_of_nil].
  - cbn [for_each] in H. apply bind_Ok_inv in H as (u & s1 & Hone & H).
    apply annotate_Ok_inv in Hone
      as (sym & indexer & _ & Hnew & _ & _ & _ & Hd & Hl & _).
    cbn [fst snd] in *.
    apply IH in H as (Hf & Hlist & Hdom & Hnd & Hfresh).
    assert (Hf1 : _fields s1.1 = _fields s.1) by by rewrite Hd.
    assert (Hl1 : list_at s1.2 (_fields s.1) = list_at s.2 (_fields s.1) ++ [n]).
    { rewrite (list_at_lists _ _ _ Hl). apply list_at_append_eq. }
    rewrite Hf1 in Hf, Hlist, Hfresh. rewrite Hl1 in Hlist, Hfresh.
    rewrite Hd in Hdom. cbn in Hdom. rewrite dom_insert_L in Hdom.
    cbn [fmap list_fmap fst]. repeat apply conj.
    + done.
    + by rewrite Hlist, <-app_assoc.
    + rewrite Hdom. cbn [list_to_set].
      by rewrite (comm_L (∪) {[n]}), <-(assoc_L (∪)).
    + constructor; [|done]. intros Hin. apply (Hfresh n Hin).
      apply elem_of_app. right. by apply list_elem_of_singleton.
    + intros m Hm Hold. apply elem_of_cons in Hm as [->|Hm]; [done|].
      apply (Hfresh m Hm). apply elem_of_app. by left.
Qed.

(** X8.  After [annotate] has returned, the field list is the one before
    followed by the keywords in call order, the Indexers are the ones
    before and one for each keyword, and every keyword was new to the field
    list. *)
Theorem annotate_appends_in_order annotations (s s' : St) :
  annotate annotations s = (Ok tt, s') ->
  list_at s'.2 (_fields s'.1) = list_at s.2 (_fields s.1) ++ annotations.*1
  /\ dom (_indexers s'.1) = dom (_indexers s.1) ∪ list_to_set annotations.*1
  /\ (forall n, n ∈ annotations.*1 -> n ∉ list_at s.2 (_fields s.1)).
Proof.
  unfold annotate. case_bool_decide as Hself; [discriminate|]. intros H.
  apply annotate_loop_appends in H as (Hf & Hl & Hdom & _ & Hfresh).
  rewrite Hf. by repeat apply conj.
Qed.

Lemma register_field_Raise_inv field_name (s s' : St) e :
  _register_field field_name s = (Raise e, s') ->
  (exists msg, e = AssertionError msg /\ s' = s)
  \/ ((forall msg, e <> AssertionError msg)
      /\ startswith field_name "_" = false
      /\ s'.1 = s.1
      /\ lists s'.2 = lists (list_append (_fields s.1) field_name s.2)).
Proof.
  unfold _register_field, bind, assert_, fields, gets, modify, reads,
    ret, raise, collaborator, symbols_page_count.
  cbn. intros H.
  repeat (case_match; simplify_eq; cbn in * ); eauto;
    right; repeat apply conj; try done;
    match goal with
    | H : negb _ = true |- _ => by apply negb_true_iff in H
    end.
Qed.

(** X9.  When [_annotate] raises anything but one of its assertions (the
    symbols object has no page count, the Indexer cannot be built, or an
    Annotation refuses to be bound), the name stays in the field list
    although no attribute was set, and a second attempt under the same name
    is refused as a duplicate. *)
Theorem annotate_failure_keeps_name field_name anns (s s' : St) e :
  _annotate field_name anns s = (Raise e, s') ->
  (forall msg, e <> AssertionError msg) ->
  field_name ∈ list_at s'.2 (_fields s'.1)
  /\ attrs s'.1 = attrs s.1
  /\ forall anns',
       _annotate field_name anns' s'
       = (Raise (AssertionError "This field name already exists"), s').
Proof.
  intros H He.
  assert (Hmain : startswith field_name "_" = false
                  /\ _fields s'.1 = _fields s.1 /\ attrs s'.1 = attrs s.1
                  /\ lists s'.2 = lists (list_append (_fields s.1) field_name s.2)).
  { unfold _annotate in H. apply bind_Raise_inv in H as [H | (u1 & s1 & Hreg & H)].
    { apply register_field_Raise_inv in H as [(msg & -> & _) | (_ & Hu & Hd & Hl)].
      - by destruct (He msg).
      - by rewrite Hd. }
    apply register_field_Ok_inv in Hreg
      as (Hu & _ & Hf & _ & sym & indexer & e' & _ & _ & ->).
    apply bind_Raise_inv in H as [H | (u2 & s2 & _ & H)].
    - apply bind_loop_inv in H as (Hd & (Hl & _) & _). rewrite Hd, Hl. done.
    - unfold setattr in H. by rewrite decide_False in H by done. }
  destruct Hmain as (Hu & Hf & Ha & Hl).
  assert (Hin : field_name ∈ list_at s'.2 (_fields s'.1)).
  { rewrite Hf, (list_at_lists _ _ _ Hl), list_at_append_eq.
    apply elem_of_app. right. by apply list_elem_of_singleton. }
  repeat apply conj; [done | done |].
  intros anns'. unfold _annotate. apply bind_Raise_step.
  by apply register_field_present.
Qed.

(** ** More on [add] *)

Lemma add_loop_inv annotations (s s' : St) :
  for_each annotations (fun kv => _add kv.1 kv.2) s = (Ok tt, s') ->
  s'.2 = s.2
  /\ _indexers s'.1 = _indexers s.1 /\ _fields s'.1 = _fields s.1
  /\ symbols s'.1 = symbols s.1 /\ images s'.1 = images s.1 /\ oid s'.1 = oid s.1
  /\ (forall name, name ∉ annotations.*1 -> attrs s'.1 !! name = attrs s.1 !! name)
  /\ (NoDup annotations.*1 -> forall name anns, (name, anns) ∈ annotations ->
        attrs s'.1 !! name = Some anns /\ name <> "fields").
Proof.
  revert s. induction annotations as [|[n anns] rest IH]; intros s H.
  - cbn in H. injection H as <-. repeat apply conj; try done.
    intros _ name anns Hin. by apply elem_of_nil in Hin.
  - cbn [for_each] in H. apply bind_Ok_inv in H as ([] & s1 & Hone & H).
    apply add_Ok_iff in Hone as (_ & _ & _ & Hf & ->).
    apply IH in H as (Hw & Hix & Hfs & Hsy & Him & Hoid & Hframe & Hset).
    cbn [fst snd] in *. cbn in Hix, Hfs, Hsy, Him, Hoid, Hframe.
    repeat apply conj; try done.
    + intros name Hname. cbn in Hname. apply not_elem_of_cons in Hname as [Hne Hname].
      rewrite (Hframe name Hname). by apply lookup_insert_ne.
    + intros Hnd name anns' Hin. cbn in Hnd. apply NoDup_cons in Hnd as [Hn Hnd].
      apply elem_of_cons in Hin as [[= -> ->] | Hin]; [|by apply Hset].
      split; [|done]. rewrite (Hframe n Hn). by apply lookup_insert_eq.
Qed.

(** X10.  [add] with pairwise distinct keywords that returns has set, for
    each keyword, the attribute to the sequence passed under it, whatever
    it was before; no other attribute changed, nor the field list, the
    Indexers or anything outside the instance. *)
Theorem add_sets_attributes_only annotations (s s' : St) :
  NoDup annotations.*1 ->
  add annotations s = (Ok tt, s') ->
  (forall name anns, (name, anns) ∈ annotations ->
     getattr name s' = (Ok (VAnnotations anns), s'))
  /\ (forall name, name ∉ annotations.*1 -> attrs s'.1 !! name = attrs s.1 !! name)
  /\ _indexers s'.1 = _indexers s.1
  /\ list_at s'.2 (_fields s'.1) = list_at s.2 (_fields s.1)
  /\ s'.2 = s.2.
Proof.
  intros Hnd H. unfold add in H. case_bool_decide as Hself; [discriminate|].
  apply add_loop_inv in H as (Hw & Hix & Hfs & _ & _ & _ & Hframe & Hset).
  repeat apply conj; try done.
  - intros name anns Hin. destruct (Hset Hnd name anns Hin). by apply getattr_injected.
  - by rewrite Hw, Hfs.
Qed.

(** ** More on [to_json] *)

Lemma serialize_field_run field (s : St) :
  (value <- getattr field ;; groups_to_json value) s = (serialize_field field s, s).
Proof.
  unfold serialize_field, bind, getattr, groups_to_json.
  repeat (case_match; simplify_eq); done.
Qed.

Lemma dict_comp_serialize keys acc (s : St) :
  dict_comp keys (fun field => value <- getattr field ;; groups_to_json value) acc s
  = (match map_outcome (serialized_entry s) keys with
     | Ok kvs => Ok (foldl (fun d kv => dict_set d kv.1 kv.2) acc kvs)
     | Raise e => Raise e
     end, s).
Proof.
  revert acc. induction keys as [|k keys IH]; intros acc; [done|].
  cbn [dict_comp map_outcome]. unfold bind at 1. rewrite serialize_field_run.
  unfold serialized_entry at 1. destruct (serialize_field k s) as [v|e]; [|done].
  rewrite IH. by destruct (map_outcome _ keys).
Qed.

Lemma to_json_run fields_arg with_images (s : St) :
  to_json fields_arg with_images s
  = (match map_outcome (serialized_entry s) (kept_fields fields_arg with_images s) with
     | Ok kvs => Ok (foldl (fun d kv => dict_set d kv.1 kv.2) [] kvs)
     | Raise e => Raise e
     end, s).
Proof.
  unfold to_json, kept_fields, requested_fields. unfold bind at 1.
  destruct fields_arg as [l|]; cbn [ret fields gets]; apply dict_comp_serialize.
Qed.

Lemma map_outcome_Ok_inv {A B} (f : A -> outcome B) l ys :
  map_outcome f l = Ok ys -> Forall2 (fun x y => f x = Ok y) l ys.
Proof.
  revert ys. induction l as [|x l IH]; intros ys H; cbn in H.
  - injection H as <-. constructor.
  - destruct (f x) as [y|e] eqn:Hx; [|discriminate].
    destruct (map_outcome f l) as [ys'|e]; [|discriminate].
    injection H as <-. constructor; [done | by apply IH].
Qed.

Lemma map_outcome_first_failure {A B} (f : A -> outcome B) before x after e :
  Forall (fun y => exists v, f y = Ok v) before ->
  f x = Raise e ->
  map_outcome f (before ++ x :: after) = Raise e.
Proof.
  intros Hb Hx. induction Hb as [|y before [v Hy] _ IH]; cbn.
  - by rewrite Hx.
  - by rewrite Hy, IH.
Qed.

Lemma map_outcome_some_failure {A B} (f : A -> outcome B) l x e :
  x ∈ l -> f x = Raise e -> exists e', map_outcome f l = Raise e'.
Proof.
  intros Hin Hx. induction l as [|y l IH]; [by apply elem_of_nil in Hin|].
  cbn. destruct (f y) as [v|e1] eqn:Hy; [|by eauto].
  apply elem_of_cons in Hin as [->|Hin]; [congruence|].
  destruct (IH Hin) as [e' ->]. eauto.
Qed.

Lemma dict_set_fresh {V} (d : list (string * V)) k v :
  k ∉ dict_keys d -> dict_set d k v = d ++ [(k, v)].
Proof.
  unfold dict_keys. induction d as [|[k0 v0] d IH]; cbn; [done|].
  intros Hk. apply not_elem_of_cons in Hk as [Hne Hk].
  rewrite decide_False by done. by rewrite IH.
Qed.

Lemma foldl_dict_set_fresh {V} (acc kvs : list (string * V)) :
  NoDup (dict_keys acc ++ dict_keys kvs) ->
  foldl (fun d kv => dict_set d kv.1 kv.2) acc kvs = acc ++ kvs.
Proof.
  unfold dict_keys. revert acc. induction kvs as [|[k v] kvs IH]; intros acc Hnd; cbn.
  - by rewrite app_nil_r.
  - cbn in Hnd. rewrite dict_set_fresh.
    + rewrite IH; [by rewrite <-app_assoc|].
      rewrite fmap_app. cbn. by rewrite <-app_assoc.
    + apply NoDup_app in Hnd as (_ & Hd & _). intros Hin.
      apply (Hd k Hin). by left.
Qed.

(** X11.  For a request without repeated names, the dict [to_json] returns
    has exactly the kept fields as keys, in the order requested, and the
    value under each is the serialization of that attribute. *)
Theorem to_json_entries fields_arg with_images (s s' : St) (out : JsonDict) :
  NoDup (kept_fields fields_arg with_images s) ->
  to_json fields_arg with_images s = (Ok out, s') ->
  dict_keys out = kept_fields fields_arg with_images s
  /\ Forall (fun kv => serialize_field kv.1 s = Ok kv.2) out.
Proof.
  intros Hnd H. rewrite to_json_run in H.
  destruct (map_outcome _ _) as [kvs|e] eqn:Hm; [|discriminate].
  apply map_outcome_Ok_inv in Hm.
  assert (Hkeys : kvs.*1 = kept_fields fields_arg with_images s
                  /\ Forall (fun kv => serialize_field kv.1 s = Ok kv.2) kvs).
  { clear H Hnd. induction Hm as [|f [k v] fs kvs Hf _ [IH1 IH2]]; [done|].
    unfold serialized_entry in Hf.
    destruct (serialize_field f s) as [v'|] eqn:Hs; [|discriminate].
    injection Hf as <- <-. cbn. rewrite IH1. split; [done|]. by constructor. }
  destruct Hkeys as [Hk Hv].
  rewrite foldl_dict_set_fresh in H by (unfold dict_keys; cbn; by rewrite Hk).
  injection H as <- _. done.
Qed.

(** X12.  [to_json] returns no partial dict: it raises what the first kept
    field that fails to serialize raises, and changes nothing. *)
Theorem to_json_first_failure fields_arg with_images (s : St) before field after e :
  kept_fields fields_arg with_images s = before ++ field :: after ->
  Forall (fun f => exists v, serialize_field f s = Ok v) before ->
  serialize_field field s = Raise e ->
  to_json fields_arg with_images s = (Raise e, s).
Proof.
  intros Hk Hb Hf. rewrite to_json_run, Hk.
  rewrite (map_outcome_first_failure _ before field after e); [done| |].
  - eapply Forall_impl; [exact Hb|]. intros f [v Hv]. exists (f, v).
    unfold serialized_entry. by rewrite Hv.
  - unfold serialized_entry. by rewrite Hf.
Qed.

Lemma dict_get_None {V} (d : list (string * V)) k :
  k ∉ d.*1 -> dict_get d k = None.
Proof.
  induction d as [|[k0 v0] d IH]; cbn; [done|].
  intros Hk. apply not_elem_of_cons in Hk as [Hne Hk].
  rewrite decide_False by done. by apply IH.
Qed.

(** A name that is no attribute of the instance cannot be read. *)
Lemma getattr_unknown name (s : St) :
  name ∉ dir s.1 -> getattr name s = (Raise AttributeError, s).
Proof.
  unfold dir. rewrite !not_elem_of_app. intros (Hinit & Hattrs & Hrest).
  apply not_elem_of_cons in Hrest as [Hdf Hrest].
  apply not_elem_of_cons in Hrest as [Hfields Hrest].
  apply not_elem_of_app in Hrest as [Hmeth Hinh].
  unfold init_attributes in Hinit. rewrite !not_elem_of_cons in Hinit.
  destruct Hinit as (H1 & H2 & H3 & H4 & _).
  unfold getattr. rewrite decide_False by done.
  destruct (attrs s.1 !! name) as [l|] eqn:Hl.
  { exfalso. apply Hattrs.
    apply list_elem_of_fmap. exists (name, l). split; [done|]. by apply elem_of_map_to_list. }
  do 5 (rewrite decide_False by done).
  rewrite bool_decide_eq_false_2 by done.
  by rewrite dict_get_None.
Qed.

Lemma dir_other_document (d d0 : Document) name :
  name ∉ dir d -> attrs d0 !! name = None -> name ∉ dir d0.
Proof.
  unfold dir. rewrite !not_elem_of_app. intros (H1 & _ & H3) Hnone.
  repeat apply conj; [done | | done].
  intros Hin. apply list_elem_of_fmap in Hin as ([k l] & -> & Hin).
  apply elem_of_map_to_list in Hin. cbn in Hnone. congruence.
Qed.

Lemma annotate_loop_names_fresh annotations (s s' : St) :
  for_each annotations (fun kv => _annotate kv.1 kv.2) s = (Ok tt, s') ->
  forall name anns, (name, anns) ∈ annotations -> exists d : Document, name ∉ dir d.
Proof.
  revert s. induction annotations as [|[n anns] rest IH]; intros s H name anns' Hin.
  - by apply elem_of_nil in Hin.
  - cbn [for_each] in H. apply bind_Ok_inv in H as (u & s1 & Hone & H).
    apply elem_of_cons in Hin as [[= -> ->] | Hin]; [|by eapply IH].
    apply annotate_Ok_inv in Hone as (sym & indexer & _ & _ & _ & Hdir & _).
    eauto.
Qed.

(** X13.  Once some Document has registered [name] (not the images name)
    through [annotate], a Document constructed afterwards has no such
    attribute although the name is in its field list, so its [to_json()]
    with the default field list raises instead of returning a dict. *)
Theorem shared_field_breaks_to_json annotations name anns (a a' : Document)
    (w w' w'' : World) (symbols : PySymbols) (images : PyImages) :
  _fields a = Document_DEFAULT_FIELDS ->
  annotate annotations (a, w) = (Ok tt, (a', w')) ->
  (name, anns) ∈ annotations ->
  name <> Images ->
  later w' w'' ->
  let b := construct symbols images w'' in
  getattr name b = (Raise AttributeError, b)
  /\ exists e, to_json None false b = (Raise e, b).
Proof.
  intros Ha H Hin Hi Hlater b.
  destruct (registered_name_reaches _ _ _ _ _ _ _ _ symbols images Ha H Hin Hlater)
    as (Hb & _ & _).
  unfold annotate in H. case_bool_decide as Hself; [discriminate|].
  destruct (annotate_loop_names_fresh _ _ _ H _ _ Hin) as [d Hd].
  assert (Hget : getattr name b = (Raise AttributeError, b)).
  { apply getattr_unknown. by apply (dir_other_document d). }
  split; [done|]. rewrite to_json_run.
  destruct (map_outcome_some_failure (serialized_entry b)
              (kept_fields None false b) name AttributeError) as [e He].
  - unfold kept_fields, requested_fields. cbn [negb]. by apply list_elem_of_filter.
  - unfold serialized_entry, serialize_field, bind. by rewrite Hget.
  - exists e. by rewrite He.
Qed.

(** X14.  After [annotate] has returned, [to_json] asked for one of its
    keywords gives, under that name alone, the serializations of the
    Annotations passed under it, in their order; or the exception of the
    first Annotation that fails to serialize. *)
Theorem annotate_then_to_json annotations name anns with_images (s s' : St) :
  annotate annotations s = (Ok tt, s') ->
  (name, anns) ∈ annotations ->
  with_images = true \/ name <> Images ->
  to_json (Some [name]) with_images s'
  = (match map_outcome (fun a => Annotation_to_json a (ext s'.2)) anns with
     | Ok values => Ok [(name, values)]
     | Raise e => Raise (CollaboratorError e)
     end, s').
Proof.
  intros H Hin Hkeep. unfold annotate in H. case_bool_decide as Hself; [discriminate|].
  apply annotate_loop_inv in H as (_ & _ & _ & Hattrs & _).
  destruct (Hattrs _ _ Hin) as [Hl Hf].
  rewrite to_json_run.
  assert (Hk : kept_fields (Some [name]) with_images s' = [name]).
  { unfold kept_fields, requested_fields.
    destruct with_images; cbn [negb]; [done|]. destruct Hkeep as [?|Hne]; [done|].
    cbn. by rewrite decide_True. }
  rewrite Hk. cbn [map_outcome]. unfold serialized_entry, serialize_field, bind.
  rewrite (getattr_injected _ _ _ Hl Hf). cbn.
  by destruct (map_outcome _ anns).
Qed.

(** ** More on [save] *)

Lemma files_only_refl (s : St) : files_only s s.
Proof. by repeat split. Qed.

Lemma files_only_trans (s1 s2 s3 : St) :
  files_only s1 s2 -> files_only s2 s3 -> files_only s1 s3.
Proof.
  intros (A1 & A2 & A3 & A4 & A5 & A6 & A7) (B1 & B2 & B3 & B4 & B5 & B6 & B7).
  repeat apply conj; try congruence. intros p Hp. by apply B7, A7.
Qed.

Lemma open_write_files_only path content (s s' : St) r :
  open_write path content s = (r, s') -> files_only s s'.
Proof.
  unfold open_write. case_bool_decide; intros [= _ <-]; [apply files_only_refl|].
  repeat apply conj; try done. intros p Hp. cbn.
  destruct (decide (path = p)) as [->|Hne].
  - rewrite lookup_insert_eq. eauto.
  - by rewrite lookup_insert_ne.
Qed.

Lemma save_images_files_only path (s s' : St) r :
  save_images path s = (r, s') -> files_only s s'.
Proof.
  unfold save_images, bind, gets. intros H.
  destruct (images s.1) as [|l|[|j l]];
    try (injection H as _ <-; apply files_only_refl).
  revert H. apply (for_each_related files_only).
  - apply files_only_refl.
  - apply files_only_trans.
  - intros x s0 r0 s1. apply open_write_files_only.
Qed.

(** X17.  Whether it returns or raises, [save] changes nothing but the
    content of files: the Document, the field list, the collaborators and
    the set of directories are as before, and no file is removed. *)
Theorem save_changes_only_files path fields_arg with_images images_in_json (s s' : St) r :
  save path fields_arg with_images images_in_json s = (r, s') ->
  files_only s s'.
Proof.
  unfold save. intros H. unfold bind at 1 in H.
  assert (Hguard : exists r0,
             (if with_images && negb images_in_json
              then is_dir <- isdir path ;;
                   assert_ is_dir
                     "When with_images=True and images_in_json=False, it requires the path to be a folder"
              else ret tt) s = (r0, s)).
  { destruct (with_images && negb images_in_json); [|by eexists].
    unfold bind, isdir, gets, assert_. case_bool_decide; by eexists. }
  destruct Hguard as [r0 Hguard]. rewrite Hguard in H.
  destruct r0 as [u|e]; [|injection H as _ <-; apply files_only_refl].
  unfold bind at 1 in H.
  destruct (to_json fields_arg _ s) as [[doc_json|e] s1] eqn:Hjson;
    apply to_json_unchanged in Hjson as ->;
    [|injection H as _ <-; apply files_only_refl].
  destruct (with_images && negb images_in_json); [|by eapply open_write_files_only].
  unfold bind in H.
  destruct (open_write _ _ s) as [[u1|e] s1] eqn:Hw; apply open_write_files_only in Hw;
    [|by injection H as _ <-].
  eapply files_only_trans; [exact Hw|]. by eapply save_images_files_only.
Qed.

(** X15.  In the single-file layout (any flags but [with_images] without
    [images_in_json]) [save] makes no check of its own on [path]: it
    serializes and then opens [path] for writing.  On a directory that
    fails with IsADirectoryError and nothing has changed; otherwise the
    file holds the serialization and no other file is touched.  The
    serialization has the images name among its keys only when both flags
    are set. *)
Theorem save_single_file path fields_arg with_images images_in_json (s : St) doc_json :
  with_images && negb images_in_json = false ->
  to_json fields_arg (with_images && images_in_json) s = (Ok doc_json, s) ->
  (path ∈ dirs s.2 ->
   save path fields_arg with_images images_in_json s = (Raise IsADirectoryError, s))
  /\ (path ∉ dirs s.2 ->
      save path fields_arg with_images images_in_json s
      = (Ok tt, (s.1, set_files (insert path (FJson doc_json)) s.2)))
  /\ (Images ∈ dict_keys doc_json -> with_images = true /\ images_in_json = true).
Proof.
  intros Hflags Hjson.
  assert (Hsave : save path fields_arg with_images images_in_json s
                  = open_write path (FJson doc_json) s).
  { unfold save. rewrite Hflags. unfold bind at 1. cbn [ret].
    unfold bind at 1. by rewrite Hjson. }
  rewrite Hsave. unfold open_write. repeat apply conj.
  - intros Hd. by rewrite bool_decide_eq_true_2.
  - intros Hd. by rewrite bool_decide_eq_false_2.
  - intros Hin. destruct with_images, images_in_json; try done;
      apply (to_json_keys _ _ _ _ Hjson) in Hin; tauto.
Qed.

(** X16.  [save] in the directory layout on a Document without images
    ([images] is [None], the default of the constructor): the directory
    passes the check, [document.json] is written, and then the loop over
    the images raises TypeError. *)
Theorem save_without_images path fields_arg (s : St) doc_json :
  path ∈ dirs s.2 ->
  images s.1 = ImNone ->
  to_json fields_arg false s = (Ok doc_json, s) ->
  os_path_join path "document.json" ∉ dirs s.2 ->
  save path fields_arg true false s
  = (Raise TypeError,
     (s.1, set_files (insert (os_path_join path "document.json") (FJson doc_json)) s.2)).
Proof.
  intros Hdir Himgs Hjson Hjp. unfold save. cbn [andb negb].
  unfold bind at 1. unfold bind at 1. unfold isdir, gets.
  rewrite bool_decide_eq_true_2 by done. cbn [assert_ ret].
  unfold bind at 1. rewrite Hjson.
  unfold bind at 1. unfold open_write at 1. rewrite bool_decide_eq_false_2 by done.
  unfold save_images, bind, gets. cbn [fst snd]. by rewrite Himgs.
Qed.

(** ** The page number in a file name *)

Lemma string_app_cons c s t : String c s +:+ t = String c (s +:+ t).
Proof. reflexivity. Qed.

Lemma string_app_nil_r s : s +:+ "" = s.
Proof. induction s as [|c s IH]; [done|]. by rewrite string_app_cons, IH. Qed.

Lemma string_app_assoc s t u : (s +:+ t) +:+ u = s +:+ t +:+ u.
Proof. induction s as [|c s IH]; [done|]. by rewrite !string_app_cons, IH. Qed.

Lemma rev_app_snoc s c acc :
  String.rev_app (s +:+ String c "") acc = String c (String.rev_app s acc).
Proof.
  revert acc. induction s as [|d s IH]; intros acc; [done|].
  rewrite string_app_cons. cbn [String.rev_app]. by rewrite IH.
Qed.

Lemma rev_app_rev_app s a b :
  String.rev_app (String.rev_app s a) b = String.rev_app a (s +:+ b).
Proof.
  revert a b. induction s as [|c s IH]; intros a b; [done|].
  cbn [String.rev_app]. by rewrite IH.
Qed.

Lemma string_rev_rev s : String.rev (String.rev s) = s.
Proof. unfold String.rev. rewrite rev_app_rev_app. apply string_app_nil_r. Qed.

Lemma string_snoc s : s <> "" -> exists s' c, s = s' +:+ String c "".
Proof.
  induction s as [|d s IH]; [done|]. intros _. destruct s as [|e s].
  - by exists "", d.
  - destruct IH as (s' & c & ->); [done|]. by exists (String d s'), c.
Qed.

Lemma endswith_sep_inv a : endswith a "/" = true -> exists a', a = a' +:+ "/".
Proof.
  destruct (decide (a = "")) as [->|Hne]; [done|].
  destruct (string_snoc a Hne) as (a' & c & ->).
  unfold endswith, String.rev. rewrite rev_app_snoc. simpl.
  case_decide as Hc; [|done]. subst c. eauto.
Qed.

Lemma has_sep_app a b : has_sep (a +:+ b) = has_sep a || has_sep b.
Proof.
  induction a as [|c a IH]; [done|]. rewrite string_app_cons. cbn [has_sep].
  case_decide; [done | apply IH].
Qed.

Lemma basename_no_sep b : has_sep b = false -> basename b = b.
Proof. destruct b as [|c b]; [done|]. intros H. cbn [basename]. by rewrite H. Qed.

Lemma basename_app a b : has_sep b = false -> basename (a +:+ b) = basename a +:+ b.
Proof.
  intros Hb. induction a as [|c a IH]; [by apply basename_no_sep|].
  rewrite string_app_cons. cbn [basename]. rewrite <-string_app_cons.
  rewrite has_sep_app, Hb, orb_false_r.
  destruct (has_sep (String c a)); [apply IH | done].
Qed.

Lemma basename_trailing_sep a : basename (a +:+ "/") = "".
Proof.
  induction a as [|c a IH]; [done|].
  rewrite string_app_cons. cbn [basename]. rewrite <-string_app_cons.
  by rewrite has_sep_app, orb_true_r.
Qed.

(** [os.path.basename] undoes [os.path.join] for a name without separator. *)
Lemma basename_join path name :
  has_sep name = false -> basename (os_path_join path name) = name.
Proof.
  intros Hn. unfold os_path_join.
  assert (Hs : startswith name "/" = false).
  { destruct name as [|c name]; [done|]. cbn [startswith has_sep] in *.
    destruct (decide (c = "/"%char)) as [|Hc]; [done|].
    by rewrite decide_False by (intros Heq; by apply Hc). }
  rewrite Hs. case_decide; [by apply basename_no_sep|].
  destruct (endswith path "/") eqn:He.
  - apply endswith_sep_inv in He as [a' ->].
    by rewrite basename_app, basename_trailing_sep.
  - rewrite <-string_app_assoc. by rewrite basename_app, basename_trailing_sep.
Qed.

Lemma digit_cases c :
  is_digit c = true ->
  c ∈ ["0"; "1"; "2"; "3"; "4"; "5"; "6"; "7"; "8"; "9"]%char.
Proof.
  destruct c as [[] [] [] [] [] [] [] []]; try discriminate; intros _; compute_done.
Qed.

Lemma all_digits_app s t : all_digits s -> all_digits t -> all_digits (s +:+ t).
Proof. induction s as [|c s IH]; [done|]. simpl. intros [? ?] ?. split; auto. Qed.

Lemma all_digits_rev_app s acc :
  all_digits s -> all_digits acc -> all_digits (String.rev_app s acc).
Proof.
  revert acc. induction s as [|c s IH]; intros acc; simpl; [done|].
  intros [? ?] ?. apply IH; [done|]. by split.
Qed.

Lemma str_of_nat_digits n : all_digits (str_of_nat n).
Proof.
  unfold str_of_nat. induction (Nat.to_uint n); simpl; auto.
Qed.

Lemma all_digits_no_sep s : all_digits s -> has_sep s = false.
Proof.
  induction s as [|c s IH]; [done|]. simpl. intros [Hc Hs].
  case_decide as Heq; [|by apply IH]. by subst c.
Qed.

Lemma lstrip_digits s : all_digits s -> lstrip s = s.
Proof.
  destruct s as [|c s]; [done|]. simpl. intros [Hc _].
  apply digit_cases in Hc. repeat (apply elem_of_cons in Hc as [->|Hc]; [done|]).
  by apply elem_of_nil in Hc.
Qed.

Lemma strip_digits s : all_digits s -> strip s = s.
Proof.
  intros Hs. unfold strip. rewrite (lstrip_digits s Hs).
  rewrite lstrip_digits; [apply string_rev_rev|].
  by apply all_digits_rev_app.
Qed.

Lemma remove_png_digits s : all_digits s -> remove_sub ".png" 0 (s +:+ ".png") = s.
Proof.
  induction s as [|c s IH]; [done|]. intros [Hc Hs].
  change (String c s +:+ ".png") with (String c (s +:+ ".png")).
  cbn [remove_sub].
  assert (Hstart : startswith (String c (s +:+ ".png")) ".png" = false).
  { simpl. case_decide as Heq; [|done]. by subst c. }
  rewrite Hstart. by rewrite IH.
Qed.

Lemma int_digits_uint d n b :
  (d <> Nil \/ b = true) ->
  int_digits (NilEmpty.string_of_uint d) (Z.of_nat n) b
  = Some (Z.of_nat (Nat.of_uint_acc d n)).
Proof.
  revert n b. induction d as [|d IH|d IH|d IH|d IH|d IH|d IH|d IH|d IH|d IH|d IH];
    intros n b Hb;
    [destruct Hb as [Hb|Hb]; [done | by subst b] | ..];
    simpl NilEmpty.string_of_uint; cbn [int_digits Nat.of_uint_acc];
    rewrite decide_False by done;
    match goal with
    | |- context [digit_value ?c] =>
        let v := eval vm_compute in (digit_value c) in
        change (digit_value c) with v
    end;
    lazy iota beta;
    match goal with
    | |- int_digits _ ?z true = Some (Z.of_nat (Nat.of_uint_acc _ ?m)) =>
        replace z with (Z.of_nat m);
        [apply IH; by right | rewrite Nat.tail_mul_spec; lia]
    end.
Qed.

Lemma py_int_str_of_nat n : py_int (str_of_nat n) = Ok (Z.of_nat n).
Proof.
  pose proof (str_of_nat_digits n) as Hd.
  destruct (str_of_nat_head n) as (c & r & Hs & _).
  unfold py_int. rewrite (strip_digits _ Hd).
  assert (Hsign : (match str_of_nat n with
                   | String "-" r0 => (true, r0)
                   | String "+" r0 => (false, r0)
                   | _ => (false, str_of_nat n)
                   end) = (false, str_of_nat n)).
  { rewrite Hs in Hd |- *. destruct Hd as [Hc _].
    apply digit_cases in Hc. repeat (apply elem_of_cons in Hc as [->|Hc]; [done|]).
    by apply elem_of_nil in Hc. }
  rewrite Hsign. cbn [fst snd]. unfold str_of_nat.
  rewrite (int_digits_uint _ 0%nat false).
  - change (Nat.of_uint_acc (Nat.to_uint n) 0) with (Nat.of_uint (Nat.to_uint n)).
    by rewrite Unsigned.of_to.
  - left. intros Hnil. unfold str_of_nat in Hs. by rewrite Hnil in Hs.
Qed.

(** X18.  The name [save] gives to the image of a page and the page number
    [load] reads off a file name fit together: for every directory and
    every page index, the sort key of the saved file is that index. *)
Theorem page_index_of_page_path path (pid : nat) :
  page_index (page_path path pid) = Ok (Z.of_nat pid).
Proof.
  unfold page_index, page_path.
  pose proof (str_of_nat_digits pid) as Hd.
  rewrite basename_join.
  - rewrite (remove_png_digits _ Hd). apply py_int_str_of_nat.
  - rewrite has_sep_app, (all_digits_no_sep _ Hd). done.
Qed.

Lemma page_index_error x e : page_index x = Raise e -> e = ValueError.
Proof.
  unfold page_index, py_int. case_match; congruence.
Qed.

(** X19.  [load] on a directory reads a page number off every [.png] entry
    before it opens any file.  For a directory whose path has no pattern
    character, one entry whose name is ASCII and, without [.png], no
    integer makes the call fail with ValueError, whatever else the
    directory holds, and nothing is read or changed. *)
Theorem load_stray_image path (w : World) x e :
  has_magic path = false ->
  path ∈ dirs w ->
  x ∈ glob_png w path ->
  is_ascii (basename x) = true ->
  page_index x = Raise e ->
  load path w = (Raise ValueError, w).
Proof.
  intros _ Hd Hx _ He. unfold load.
  unfold bind at 1. unfold gets at 1.
  rewrite bool_decide_eq_true_2 by done.
  unfold bind at 1. unfold bind at 1. unfold gets at 1.
  unfold bind at 1. unfold reads at 1.
  destruct (map_outcome_some_failure
              (fun x => match page_index x with
                        | Ok k => Ok (k, x)
                        | Raise e => Raise e
                        end) (glob_png w path) x e Hx) as [e' He'].
  { by rewrite He. }
  rewrite He'. f_equal. f_equal.
  clear He Hx. induction (glob_png w path) as [|y l IH]; [done|].
  cbn [map_outcome] in He'. destruct (page_index y) as [k|e1] eqn:Hy.
  - destruct (map_outcome _ l) as [ks|e2]; [done|].
    injection He' as <-. by apply IH.
  - injection He' as <-. by apply page_index_error in Hy.
Qed.

End Properties.

(** * The scenarios *)

Section Scenarios.

#[local] Existing Instance simple.

Example alice_is_first : oid alice.1 = 0%nat /\ oid bob.1 = 1%nat.
Proof. done. Qed.

Example alice_annotate_returns :
  annotate [("tokens", [5; 6])] alice = (Ok tt, alice_tokens).
Proof. vm_compute. reflexivity. Qed.

(** [alice] is the first Document of the process and registers [tokens];
    [bob] is constructed afterwards. *)
Lemma fresh_document_breaks_registry_witness :
  registry_consistent alice
  /\ registry_consistent alice_tokens
  /\ list_at bob.2 (_fields bob.1) = ["symbols"; "images"; "tokens"]
  /\ _indexers bob.1 = ∅
  /\ ~ registry_consistent bob.
Proof.
  assert (Ha : registry_consistent alice) by apply first_document_consistent.
  destruct (fresh_document_breaks_registry [("tokens", [5; 6])] "tokens" [5; 6]
              alice.1 alice_tokens.1 alice.2 alice_tokens.2 alice_tokens.2
              two_pages ImNone) as [Hkeep Hbreak].
  - reflexivity.
  - vm_compute. reflexivity.
  - compute_done.
  - discriminate.
  - discriminate.
  - apply later_now.
  - repeat apply conj; [exact Ha | exact (Hkeep Ha) | | reflexivity | exact Hbreak].
    vm_compute. reflexivity.
Defined.

(** [annotate] with a second keyword that is refused, and [add] with a
    second keyword that was never registered: the first field stays. *)
Lemma violation_keeps_earlier_fields_witness :
  (exists done name anns rest,
     [("tokens", [5; 6]); ("_hidden", [9]); ("more", [])] = done ++ (name, anns) :: rest
     /\ annotate done alice = (Ok tt, alice_tokens)
     /\ _annotate name anns alice_tokens
        = (Raise (AssertionError "The field_name should not start with `_`. "),
           alice_tokens))
  /\ (exists done name anns rest,
        [("tokens", [7]); ("nowhere", [7])] = done ++ (name, anns) :: rest
        /\ add done alice_later = (Ok tt, alice_readded)
        /\ _add name anns alice_readded = (Raise (AssertionError ""), alice_readded)).
Proof.
  split.
  - apply (proj1 (violation_keeps_earlier_fields _ alice alice_tokens _)).
    vm_compute. reflexivity.
  - apply (proj2 (violation_keeps_earlier_fields _ alice_later alice_readded _)).
    vm_compute. reflexivity.
Defined.


(** [a7] is bound to [bob]; [alice.add(tokens=[a7])] returns all the same. *)
Lemma add_accepts_other_documents_witness :
  oid alice_later.1 = 0%nat
  /\ Annotation_doc 7 (ext alice_later.2) = Ok (RDocument 1)
  /\ _add "tokens" [7] alice_later
     = (Ok tt, (set_attrs (insert "tokens" [7]) alice_later.1, alice_later.2))
  /\ _indexers (set_attrs (insert "tokens" [7]) alice_later.1) = _indexers alice_later.1.
Proof.
  split; [reflexivity|]. split; [vm_compute; reflexivity|].
  apply (add_accepts_other_documents "tokens" [7] alice_later).
  - compute_done.
  - exists 0%nat. vm_compute. reflexivity.
  - discriminate.
  - constructor; [|constructor]. exists 1%nat. split; [discriminate|].
    vm_compute. reflexivity.
Defined.

(** The images field is listed explicitly and left out all the same. *)
Lemma to_json_without_images_witness :
  ("images" ∉ dict_keys [("tokens", [5; 6])])
  /\ (forall k, k ∈ dict_keys [("tokens", [5; 6])]
        <-> k ∈ requested_fields (Some ["tokens"; "images"]) alice_tokens /\ k <> "images")
  /\ (forall with_images, to_json None with_images alice_tokens
        = to_json (Some (list_at alice_tokens.2 (_fields alice_tokens.1)))
            with_images alice_tokens).
Proof.
  apply (to_json_without_images (Some ["tokens"; "images"]) alice_tokens alice_tokens
           [("tokens", [5; 6])]).
  vm_compute. reflexivity.
Defined.



(** [alice] registers [tokens]; [bob] is constructed afterwards. *)
Lemma registration_is_shared_witness :
  "tokens" ∈ list_at bob.2 (_fields bob.1)
  /\ _indexers bob.1 !! "tokens" = None
  /\ forall anns',
       annotate [("tokens", anns')] bob
       = (Raise (AssertionError "This field name already exists"), bob).
Proof.
  apply (registration_is_shared [("tokens", [5; 6])] "tokens" [5; 6]
           alice.1 alice_tokens.1 alice.2 alice_tokens.2 alice_tokens.2 two_pages ImNone).
  - reflexivity.
  - vm_compute. reflexivity.
  - compute_done.
  - apply later_now.
Defined.

(** ** The failing inputs, evaluated *)

(** [Document.from_json(alice.to_json())] *)
Example from_json_of_to_json :
  to_json None false alice_tokens
  = (Ok [("symbols", []); ("tokens", [5; 6])], alice_tokens)
  /\ from_json [("symbols", []); ("tokens", [5; 6])] alice_tokens.2
     = (Raise AttributeError, alice_tokens.2).
Proof. split; vm_compute; reflexivity. Qed.

(** [alice.find(q, "tokens")] on the registered field, and what the body
    does when its receiver is the instance. *)
Example find_registered_field :
  is_Some (_indexers alice_tokens.1 !! "tokens")
  /\ find 1%nat "tokens" alice_tokens = (Raise AttributeError, alice_tokens)
  /\ (find_body TheInstance 1%nat "tokens" alice_tokens).1 = Ok [].
Proof. repeat apply conj; [by exists 0%nat | reflexivity | vm_compute; reflexivity]. Qed.

(** [Document.load("out")] on a directory that holds [document.json] and
    the pages 0 to 10: the images are found and sorted by page number, page
    9 before page 10, and then [from_json] raises. *)
Example load_saved_directory :
  (sort_by_key (omap (fun x => match page_index x with
                               | Ok k => Some (k, x)
                               | Raise _ => None
                               end) (glob_png saved_world "out"))).*2
  = [ "out/0.png"; "out/1.png"; "out/2.png"; "out/3.png"; "out/4.png"; "out/5.png";
      "out/6.png"; "out/7.png"; "out/8.png"; "out/9.png"; "out/10.png" ]
  /\ load "out" saved_world = (Raise AttributeError, saved_world)
  /\ load "out/document.json" saved_world = (Raise AttributeError, saved_world)
  /\ load "elsewhere" saved_world = (Raise FileNotFoundError, saved_world).
Proof. repeat apply conj; vm_compute; reflexivity. Qed.

(** ** Further instances *)

Lemma register_field_twice_witness :
  _register_field "tokens" (_register_field "tokens" alice).2
  = (Raise (AssertionError "This field name already exists"),
     (_register_field "tokens" alice).2).
Proof.
  apply (register_field_twice "tokens" alice). vm_compute. reflexivity.
Defined.

Lemma add_unregistered_fails_witness :
  _add "words" [7] alice_later = (Raise (AssertionError ""), alice_later).
Proof.
  apply (add_unregistered_fails "words" [7] alice_later). right. reflexivity.
Defined.

Lemma add_unbound_fails_witness :
  exists e, _add "tokens" [9] alice_later = (Raise e, alice_later).
Proof.
  apply (add_unbound_fails "tokens" [9] 9%nat alice_later).
  - compute_done.
  - exists 0%nat. vm_compute. reflexivity.
  - compute_done.
  - vm_compute. reflexivity.
Defined.


Lemma own_calls_keep_registry_witness :
  registry_consistent alice_tokens.
Proof.
  apply (proj1 (own_calls_keep_registry [("tokens", [5; 6])] alice alice_tokens
                  (first_document_consistent _ _ _ _ _))).
  vm_compute. reflexivity.
Defined.

Lemma annotate_failure_keeps_name_witness :
  (@_annotate fragile "tokens" [5; 13; 6] dora).1 = Raise (CollaboratorError ValueError)
  /\ "tokens" ∈ list_at dora_failed.2 (_fields dora_failed.1)
  /\ attrs dora_failed.1 = attrs dora.1
  /\ forall anns',
       @_annotate fragile "tokens" anns' dora_failed
       = (Raise (AssertionError "This field name already exists"), dora_failed).
Proof.
  split; [vm_compute; reflexivity|].
  apply (@annotate_failure_keeps_name fragile "tokens" [5; 13; 6] dora dora_failed
           (CollaboratorError ValueError)).
  - vm_compute. reflexivity.
  - discriminate.
Defined.

Lemma annotate_appends_in_order_witness :
  list_at alice_two.2 (_fields alice_two.1) = ["symbols"; "images"; "tokens"; "sentences"]
  /\ dom (_indexers alice_two.1) = dom (_indexers alice.1) ∪ list_to_set ["tokens"; "sentences"]
  /\ (forall n, n ∈ ["tokens"; "sentences"] -> n ∉ list_at alice.2 (_fields alice.1)).
Proof.
  apply (annotate_appends_in_order [("tokens", [5; 6]); ("sentences", [8])] alice alice_two).
  vm_compute. reflexivity.
Defined.

(** [alice.add(tokens=[a7])] replaces the sequence [annotate] had stored. *)
Lemma add_sets_attributes_only_witness :
  getattr "tokens" alice_later = (Ok (VAnnotations [5; 6]), alice_later)
  /\ getattr "tokens" alice_readded = (Ok (VAnnotations [7]), alice_readded)
  /\ _indexers alice_readded.1 = _indexers alice_later.1
  /\ alice_readded.2 = alice_later.2.
Proof.
  destruct (add_sets_attributes_only [("tokens", [7])] alice_later alice_readded)
    as (Hget & _ & Hix & _ & Hw).
  - compute_done.
  - vm_compute. reflexivity.
  - repeat apply conj; [vm_compute; reflexivity | | exact Hix | exact Hw].
    apply Hget. compute_done.
Defined.

(** [bob.to_json()] once [alice] has registered [tokens]. *)
Lemma shared_field_breaks_to_json_witness :
  getattr "tokens" bob = (Raise AttributeError, bob)
  /\ exists e, to_json None false bob = (Raise e, bob).
Proof.
  apply (shared_field_breaks_to_json [("tokens", [5; 6])] "tokens" [5; 6]
           alice.1 alice_tokens.1 alice.2 alice_tokens.2 alice_tokens.2 two_pages ImNone).
  - reflexivity.
  - vm_compute. reflexivity.
  - compute_done.
  - discriminate.
  - apply later_now.
Defined.

Lemma annotate_then_to_json_witness :
  to_json (Some ["tokens"]) false alice_two = (Ok [("tokens", [5; 6])], alice_two).
Proof.
  apply (annotate_then_to_json [("tokens", [5; 6]); ("sentences", [8])] "tokens" [5; 6]
           false alice alice_two).
  - vm_compute. reflexivity.
  - compute_done.
  - right. discriminate.
Defined.

Lemma to_json_entries_witness :
  dict_keys ([("sentences", [8]); ("tokens", [5; 6])] : JsonDict)
  = kept_fields (Some ["sentences"; "images"; "tokens"]) false alice_two
  /\ Forall (fun kv => serialize_field kv.1 alice_two = Ok kv.2)
       ([("sentences", [8]); ("tokens", [5; 6])] : JsonDict).
Proof.
  apply (to_json_entries (Some ["sentences"; "images"; "tokens"]) false alice_two alice_two).
  - vm_compute. repeat constructor; compute_done.
  - vm_compute. reflexivity.
Defined.

(** [alice.to_json(fields=["tokens", "nothing", "annotate"])]: the first
    field serializes, the second is no attribute. *)
Lemma to_json_first_failure_witness :
  to_json (Some ["tokens"; "nothing"; "annotate"]) false alice_tokens
  = (Raise AttributeError, alice_tokens).
Proof.
  apply (to_json_first_failure (Some ["tokens"; "nothing"; "annotate"]) false alice_tokens
           ["tokens"] "nothing" ["annotate"]).
  - vm_compute. reflexivity.
  - constructor; [|constructor]. exists [5; 6]%nat. vm_compute. reflexivity.
  - vm_compute. reflexivity.
Defined.

Lemma save_changes_only_files_witness :
  files_only carol (save "out" None true false carol).2.
Proof.
  apply (save_changes_only_files "out" None true false carol _
           (save "out" None true false carol).1).
  by destruct (save "out" None true false carol).
Defined.

(** [carol.save("doc.json", with_images=False)] *)
Lemma save_single_file_witness :
  save "doc.json" None false false carol
  = (Ok tt, (carol.1, set_files (insert "doc.json" (FJson [("symbols", [])])) carol.2))
  /\ save "out" None false false carol = (Raise IsADirectoryError, carol).
Proof.
  destruct (save_single_file "doc.json" None false false carol [("symbols", [])])
    as (_ & Hfile & _); [reflexivity | vm_compute; reflexivity |].
  destruct (save_single_file "out" None false false carol [("symbols", [])])
    as (Hdir & _ & _); [reflexivity | vm_compute; reflexivity |].
  split; [apply Hfile | apply Hdir]; compute_done.
Defined.

(** [alice.save("out")] with the default arguments. *)
Lemma save_without_images_witness :
  save "out" None true false alice
  = (Raise TypeError,
     (alice.1,
      set_files (insert "out/document.json" (FJson [("symbols", [])])) alice.2)).
Proof.
  apply (save_without_images "out" None alice [("symbols", [])]).
  - compute_done.
  - reflexivity.
  - vm_compute. reflexivity.
  - compute_done.
Defined.

Lemma load_stray_image_witness :
  load "out" cover_world = (Raise ValueError, cover_world).
Proof.
  apply (load_stray_image "out" cover_world "out/cover.png" ValueError);
    [reflexivity | compute_done | compute_done | reflexivity
    | vm_compute; reflexivity].
Defined.

End Scenarios.
